(** * mssql-bridge: the HTTP-to-SQL bridge of [src/server.js]

    The bridge is one Express application holding one module-level
    variable, [pool].  Everything else it does is a conversation with the
    [mssql] driver and with the console.  The development below embeds

    - the JSON/JavaScript values the handlers inspect ([JsValue]);
    - the [mssql] driver as an interface ([MssqlDriver]): the bridge is
      verified against every driver, and a small concrete driver
      ([Mock.driver]) is used to run the handlers on concrete requests;
    - the handlers themselves, in a state-and-exception monad whose state
      is the module-level [pool] variable, the state of the external
      database and the sequence of observable effects (driver calls and
      console lines) issued so far.

    Each handler is modelled as one uninterrupted run: the interleaving of
    several requests at their [await] points is outside this model. *)

From Stdlib Require Import String Ascii List ZArith Bool Lia DecimalString.
From Stdlib Require DecimalNat.
Import ListNotations.
Local Open Scope string_scope.
Local Open Scope Z_scope.
Set Warnings "-register-all".

(** ** JavaScript values *)

(** What [express.json()] can put in [req.body], what the handlers pass to
    [res.json], and what the driver returns in a row.  Numbers are
    restricted to the integers. *)
Inductive JsValue : Type :=
| JUndefined
| JNull
| JBool (b : bool)
| JNumber (z : Z)
| JString (s : string)
| JArray (items : list JsValue)
| JObject (props : list (string * JsValue)).

(** An [Error] object: the two properties the catch block reads. *)
Record JsError : Type := { message : string; stack : string }.

(** A [TypeError] raised by the engine; the frame lines of the stack are
    left out. *)
Definition TypeError (msg : string) : JsError :=
  {| message := msg; stack := "TypeError: " ++ msg |}.

(** [!v] is [negb (truthy v)]. *)
Definition truthy (v : JsValue) : bool :=
  match v with
  | JUndefined | JNull => false
  | JBool b => b
  | JNumber z => negb (z =? 0)
  | JString s => negb (s =? "")%string
  | JArray _ | JObject _ => true
  end.

Fixpoint assoc (k : string) (props : list (string * JsValue)) : option JsValue :=
  match props with
  | [] => None
  | (k', v) :: rest => if (k =? k')%string then Some v else assoc k rest
  end.

(** [v.k] for the two keys the bridge reads, [query] and [parameters]:
    no prototype defines them, so only a plain object can hold them.
    [v] is neither [undefined] nor [null] here. *)
Definition get_prop (v : JsValue) (k : string) : JsValue :=
  match v with
  | JObject props =>
      match assoc k props with
      | Some x => x
      | None => JUndefined
      end
  | _ => JUndefined
  end.

(** [const { query, parameters = {} } = req.body]: destructuring throws on
    [undefined] and [null] only; the default replaces [undefined] only. *)
Definition destructure (body : JsValue) : JsError + (JsValue * JsValue) :=
  match body with
  | JUndefined =>
      inl (TypeError
        "Cannot destructure property 'query' of 'req.body' as it is undefined.")
  | JNull =>
      inl (TypeError
        "Cannot destructure property 'query' of 'req.body' as it is null.")
  | _ =>
      let query := get_prop body "query" in
      let parameters :=
        match get_prop body "parameters" with
        | JUndefined => JObject []
        | v => v
        end in
      inr (query, parameters)
  end.

Definition decimal (n : nat) : string :=
  NilEmpty.string_of_uint (Nat.to_uint n).

Fixpoint indexed_from (i : nat) (items : list JsValue)
  : list (string * JsValue) :=
  match items with
  | [] => []
  | x :: rest => (decimal i, x) :: indexed_from (S i) rest
  end.

Fixpoint chars (s : string) : list JsValue :=
  match s with
  | EmptyString => []
  | String c rest => JString (String c EmptyString) :: chars rest
  end.

(** [Object.entries(v)]: the own enumerable properties in enumeration
    order.  A [JObject] lists its properties in that order already. *)
Definition Object_entries (v : JsValue)
  : JsError + list (string * JsValue) :=
  match v with
  | JUndefined | JNull =>
      inl (TypeError "Cannot convert undefined or null to object")
  | JBool _ | JNumber _ => inr []
  | JString s => inr (indexed_from 0 (chars s))
  | JArray items => inr (indexed_from 0 items)
  | JObject props => inr props
  end.

(** Whether key [k] appears in the text [res.json] sends: [JSON.stringify]
    leaves out the properties whose value is [undefined]. *)
Definition json_has_field (k : string) (v : JsValue) : bool :=
  match v with
  | JObject props =>
      match assoc k props with
      | None | Some JUndefined => false
      | Some _ => true
      end
  | _ => false
  end.

(** ** [parseInt] with no radix argument *)

Definition is_space (c : ascii) : bool :=
  match nat_of_ascii c with
  | 9%nat | 10%nat | 11%nat | 12%nat | 13%nat | 32%nat => true
  | _ => false
  end.

Fixpoint trim_start (s : string) : string :=
  match s with
  | EmptyString => EmptyString
  | String c rest => if is_space c then trim_start rest else s
  end.

Definition digit_value (c : ascii) : option Z :=
  let n := Z.of_nat (nat_of_ascii c) in
  if (48 <=? n) && (n <=? 57) then Some (n - 48)
  else if (97 <=? n) && (n <=? 122) then Some (n - 87)
  else if (65 <=? n) && (n <=? 90) then Some (n - 55)
  else None.

Fixpoint parse_digits (radix : Z) (s : string) (acc : option Z) : option Z :=
  match s with
  | EmptyString => acc
  | String c rest =>
      match digit_value c with
      | Some d =>
          if d <? radix
          then parse_digits radix rest
                 (Some (match acc with Some a => a * radix + d | None => d end))
          else acc
      | None => acc
      end
  end.

(** [None] is [NaN]. *)
Definition parseInt (s : string) : option Z :=
  let s := trim_start s in
  let '(sign, s) :=
    match s with
    | String "-"%char rest => (-1, rest)
    | String "+"%char rest => (1, rest)
    | _ => (1, s)
    end in
  let '(radix, s) :=
    match s with
    | String "0"%char (String "x"%char rest)
    | String "0"%char (String "X"%char rest) => (16, rest)
    | _ => (10, s)
    end in
  option_map (Z.mul sign) (parse_digits radix s None).

(** ** Configuration read from the environment *)

Record PoolOptions : Type :=
  { max : Z; min : Z; idleTimeoutMillis : Z }.

Record ConnOptions : Type :=
  { encrypt : bool;
    trustServerCertificate : bool;
    connectTimeout : Z;
    requestTimeout : Z }.

Record SqlConfig : Type :=
  { server : option string;
    database : option string;
    user : option string;
    password : option string;
    port : option Z;
    options : ConnOptions;
    pool_options : PoolOptions }.

(** [process.env]: a variable is a string or is not set. *)
Definition Env : Type := string -> option string.

(** [process.env.K || dflt]: the empty string is falsy too. *)
Definition env_or (env : Env) (k dflt : string) : string :=
  match env k with
  | Some EmptyString | None => dflt
  | Some s => s
  end.

(** [process.env.K === 'text'] *)
Definition env_is (env : Env) (k text : string) : bool :=
  match env k with
  | Some s => (s =? text)%string
  | None => false
  end.

Definition sqlConfig (env : Env) : SqlConfig :=
  {| server := env "MSSQL_SERVER";
     database := env "MSSQL_DATABASE";
     user := env "MSSQL_USERNAME";
     password := env "MSSQL_PASSWORD";
     port := parseInt (env_or env "MSSQL_PORT" "1433");
     options :=
       {| encrypt := env_is env "MSSQL_ENCRYPT" "true";
          trustServerCertificate :=
            env_is env "MSSQL_TRUST_SERVER_CERTIFICATE" "true";
          connectTimeout := 30000;
          requestTimeout := 30000 |};
     pool_options := {| max := 10; min := 0; idleTimeoutMillis := 30000 |} |}.

Definition PORT (env : Env) : string := env_or env "PORT" "3000".

(** ** The driver *)

(** What one [request.query] resolves to: [result.recordset] is the list
    of rows, or [undefined] for a statement that returns none. *)
Record QueryResult : Type := { recordset : option (list JsValue) }.

(** The part of [mssql] the bridge calls.  [Db] is the state of everything
    behind the driver; a call either returns or throws, and moves that
    state. *)
Class MssqlDriver : Type :=
  { Pool : Type;
    Request : Type;
    Db : Type;
    sql_connect : SqlConfig -> Db -> (JsError + Pool) * Db;
    pool_connected : Pool -> Db -> bool;
    pool_request : Pool -> Db -> (JsError + Request) * Db;
    request_input : Request -> string -> JsValue -> Db -> (JsError + unit) * Db;
    request_query : Request -> string -> Db -> (JsError + QueryResult) * Db;
    pool_close : Pool -> Db -> (JsError + unit) * Db }.

(** A response as the handler leaves it: the status and the value handed
    to [res.json]. *)
Record Response : Type := { status : Z; body : JsValue }.

Definition error_field (r : Response) : JsValue := get_prop (body r) "error".

(** ** The process: its state and its effects *)

Section Bridge.

Context {drv : MssqlDriver}.
Variable env : Env.

(** What the process does to the outside, in the order it does it. *)
Inductive Effect : Type :=
| Connect (config : SqlConfig)
| NewRequest (p : Pool)
| Input (r : Request) (name : string) (value : JsValue)
| Query (r : Request) (text : string)
| Close (p : Pool)
| ConsoleLog (args : list string)
| ConsoleError (text : string) (err : option JsError).

(** [pool] is the module-level variable ([None] is [null]); [db] the state
    behind the driver; [trace] the effects so far, oldest first. *)
Record World : Type :=
  { pool : option Pool; db : Db; trace : list Effect }.

(** The module as loaded: [let pool = null]. *)
Definition boot (d : Db) : World := {| pool := None; db := d; trace := [] |}.

(** A computation runs from a world to a value or a thrown error, and a
    world. *)
Definition M (A : Type) : Type := World -> (JsError + A) * World.

Definition ret {A} (a : A) : M A := fun w => (inr a, w).

Definition throw {A} (e : JsError) : M A := fun w => (inl e, w).

Definition bind {A B} (m : M A) (k : A -> M B) : M B :=
  fun w =>
    match m w with
    | (inr a, w') => k a w'
    | (inl e, w') => (inl e, w')
    end.

Definition try_catch {A} (m : M A) (handler : JsError -> M A) : M A :=
  fun w =>
    match m w with
    | (inr a, w') => (inr a, w')
    | (inl e, w') => handler e w'
    end.

Definition lift {A} (r : JsError + A) : M A := fun w => (r, w).

Definition emit (e : Effect) : M unit :=
  fun w => (inr tt, {| pool := pool w; db := db w; trace := trace w ++ [e] |}).

(** A driver call: recorded, then run on the database. *)
Definition call {A} (e : Effect) (op : Db -> (JsError + A) * Db) : M A :=
  fun w =>
    let '(r, d) := op (db w) in
    (r, {| pool := pool w; db := d; trace := trace w ++ [e] |}).

Definition get_pool : M (option Pool) := fun w => (inr (pool w), w).

Definition set_pool (p : Pool) : M unit :=
  fun w => (inr tt, {| pool := Some p; db := db w; trace := trace w |}).

(** Reading [p.connected]. *)
Definition read_connected (p : Pool) : M bool :=
  fun w => (inr (pool_connected p (db w)), w).

Notation "x <- m ;; k" := (bind m (fun x => k))
  (at level 61, m at next level, right associativity).
Notation "' pat <- m ;; k" := (bind m (fun pat => k))
  (at level 61, pat pattern, m at next level, right associativity).
Notation "m ;; k" := (bind m (fun _ => k))
  (at level 61, right associativity).

Fixpoint forEach {A} (f : A -> M unit) (l : list A) : M unit :=
  match l with
  | [] => ret tt
  | x :: rest => f x ;; forEach f rest
  end.

(** ** The pool *)

(** [pool = await sql.connect(sqlConfig)] assigns only when the promise
    resolves. *)
Definition initializePool : M Pool :=
  try_catch
    (p <- call (Connect (sqlConfig env)) (sql_connect (sqlConfig env)) ;;
     set_pool p ;;
     emit (ConsoleLog ["Connected to MSSQL database"]) ;;
     ret p)
    (fun err =>
       emit (ConsoleError "Database connection failed:" (Some err)) ;;
       throw err).

(** [pool && pool.connected], as a value and as a condition. *)
Definition connected_flag (w : World) : JsValue :=
  match pool w with
  | None => JNull
  | Some p => JBool (pool_connected p (db w))
  end.

Definition pool_is_live : M bool :=
  cur <- get_pool ;;
  match cur with
  | None => ret false
  | Some p => read_connected p
  end.

(** [if (!pool || !pool.connected) { pool = await initializePool(); }] *)
Definition ensure_pool : M unit :=
  live <- pool_is_live ;;
  if live then ret tt
  else (p <- initializePool ;; set_pool p).

(** ** The handlers *)

Definition res_json (code : Z) (v : JsValue) : Response :=
  {| status := code; body := v |}.

Definition get_health : M Response :=
  fun w =>
    (inr (res_json 200
            (JObject [("status", JString "ok");
                      ("service", JString "mssql-bridge");
                      ("connected", connected_flag w)])), w).

Definition get_root : M Response :=
  fun w =>
    (inr (res_json 200
            (JObject [("status", JString "ok");
                      ("service", JString "mssql-bridge");
                      ("message", JString "MSSQL Bridge is running");
                      ("connected", connected_flag w)])), w).

(** [request.input(key, value)] for every entry, in order. *)
Definition bind_parameters (request : Request)
    (entries : list (string * JsValue)) : M unit :=
  forEach (fun '(key, value) =>
             call (Input request key value) (request_input request key value))
          entries.

(** Lines 82 to 98: what follows the pool check.  Only a string has a
    [substring] method. *)
Definition execute (query parameters : JsValue) : M Response :=
  match query with
  | JString text =>
      emit (ConsoleLog ["Executing query:"; substring 0 100 text ++ "..."]) ;;
      cur <- get_pool ;;
      match cur with
      | None =>
          throw (TypeError "Cannot read properties of null (reading 'request')")
      | Some p =>
          request <- call (NewRequest p) (pool_request p) ;;
          entries <- lift (Object_entries parameters) ;;
          bind_parameters request entries ;;
          result <- call (Query request text) (request_query request text) ;;
          match recordset result with
          | None =>
              throw (TypeError
                "Cannot read properties of undefined (reading 'length')")
          | Some rows =>
              emit (ConsoleLog ["Query executed successfully, returned "
                                ++ decimal (length rows) ++ " rows"]) ;;
              ret (res_json 200 (JArray rows))
          end
      end
  | _ => throw (TypeError "query.substring is not a function")
  end.

(** The [try] block of [app.post('/')]. *)
Definition post_try (req_body : JsValue) : M Response :=
  '(query, parameters) <- lift (destructure req_body) ;;
  if negb (truthy query)
  then ret (res_json 400 (JObject [("error", JString "Query is required")]))
  else ensure_pool ;; execute query parameters.

(** The [catch] block: what it sends, and the block. *)
Definition error_reply (error : JsError) : Response :=
  res_json 500
    (JObject [("error", JString (message error));
              ("details",
               if env_is env "NODE_ENV" "development"
               then JString (stack error)
               else JUndefined)]).

Definition post_catch (error : JsError) : M Response :=
  emit (ConsoleError "Query execution error:" (Some error)) ;;
  ret (error_reply error).

Definition post_root (req_body : JsValue) : M Response :=
  try_catch (post_try req_body) post_catch.

(** [process.on('SIGTERM', ...)]: the value is the code given to
    [process.exit]; a thrown error is a rejection nobody handles. *)
Definition on_sigterm : M Z :=
  emit (ConsoleLog ["SIGTERM signal received: closing MSSQL connection"]) ;;
  cur <- get_pool ;;
  match cur with
  | Some p => call (Close p) (pool_close p)
  | None => ret tt
  end ;;
  ret 0.

(** The callback of [app.listen]. *)
Definition on_listen : M unit :=
  emit (ConsoleLog ["MSSQL Bridge listening on port " ++ PORT env]) ;;
  try_catch
    (initializePool ;; ret tt)
    (fun _ =>
       emit (ConsoleError "Failed to initialize database connection" None)).

(** ** The process as a reactive system *)

Inductive Stimulus : Type :=
| Listening
| GetHealth
| GetRoot
| PostRoot (req_body : JsValue)
| Sigterm.

(** How one callback ends: a response was sent, the callback returned,
    the process exited, or an error escaped the callback. *)
Inductive Outcome : Type :=
| Responded (r : Response)
| Returned
| Exited (code : Z)
| Unhandled (e : JsError).

Definition outcome_of {A} (ok : A -> Outcome) (r : JsError + A) : Outcome :=
  match r with
  | inr a => ok a
  | inl e => Unhandled e
  end.

Definition react (s : Stimulus) (w : World) : Outcome * World :=
  match s with
  | Listening => let '(r, w') := on_listen w in (outcome_of (fun _ => Returned) r, w')
  | GetHealth => let '(r, w') := get_health w in (outcome_of Responded r, w')
  | GetRoot => let '(r, w') := get_root w in (outcome_of Responded r, w')
  | PostRoot b => let '(r, w') := post_root b w in (outcome_of Responded r, w')
  | Sigterm => let '(r, w') := on_sigterm w in (outcome_of Exited r, w')
  end.

(** The process is still serving after a callback that returned or
    responded. *)
Definition keeps_running (o : Outcome) : bool :=
  match o with
  | Responded _ | Returned => true
  | Exited _ | Unhandled _ => false
  end.

(** The driver calls among a list of effects. *)
Definition is_driver_call (e : Effect) : bool :=
  match e with
  | ConsoleLog _ | ConsoleError _ _ => false
  | _ => true
  end.

Definition driver_calls (t : list Effect) : list Effect :=
  filter is_driver_call t.

(** Callbacks one after the other, until one ends the process. *)
Fixpoint run (stimuli : list Stimulus) (w : World) : World :=
  match stimuli with
  | [] => w
  | s :: rest =>
      let '(o, w') := react s w in
      if keeps_running o then run rest w' else w'
  end.

(** ** The driver's side of one request

    What the database sees of a request that got its pool: one request
    object, the bindings in order, one query.  These run on [Db] alone and
    are what "accepted by the driver" and "the driver throws" refer to. *)

Fixpoint driver_inputs (r : Request) (entries : list (string * JsValue))
    (d : Db) : (JsError + unit) * Db :=
  match entries with
  | [] => (inr tt, d)
  | (key, value) :: rest =>
      match request_input r key value d with
      | (inr _, d') => driver_inputs r rest d'
      | (inl e, d') => (inl e, d')
      end
  end.

Definition driver_session (p : Pool) (text : string)
    (entries : list (string * JsValue)) (d : Db)
  : (JsError + QueryResult) * Db :=
  match pool_request p d with
  | (inr r, d1) =>
      match driver_inputs r entries d1 with
      | (inr _, d2) => request_query r text d2
      | (inl e, d2) => (inl e, d2)
      end
  | (inl e, d1) => (inl e, d1)
  end.

(** "No pool exists or the existing pool reports disconnected". *)
Definition no_live_pool (w : World) : Prop :=
  pool w = None \/
  exists p, pool w = Some p /\ pool_connected p (db w) = false.

(** "A non-production configuration": [NODE_ENV] is anything but
    [production]. *)
Definition non_production : bool := negb (env_is env "NODE_ENV" "production").

(** The console line printed when, and only when, [sql.connect] resolved. *)
Definition connected_line : Effect := ConsoleLog ["Connected to MSSQL database"].

Definition is_close (e : Effect) : bool :=
  match e with
  | Close _ => true
  | _ => false
  end.

(** The [request.input] calls that bind [entries] on [r]. *)
Definition bindings (r : Request) (entries : list (string * JsValue))
  : list Effect :=
  map (fun '(key, value) => Input r key value) entries.

(** ** Frames

    [respects R m]: every run of [m] relates the world it starts from to
    the world it ends in by [R], whether it returns or throws. *)
Definition respects {A} (R : World -> World -> Prop) (m : M A) : Prop :=
  forall w r w', m w = (r, w') -> R w w'.

(** The module-level [pool] is the same. *)
Definition same_pool (w w' : World) : Prop := pool w' = pool w.

(** [pool] changed only if the console shows a connection was made, and
    nothing was erased from the trace. *)
Definition pool_changes_logged (w w' : World) : Prop :=
  (pool w' = pool w \/ In connected_line (trace w')) /\
  (forall e, In e (trace w) -> In e (trace w')).

(** The trace only grew, and by no [pool.close()]. *)
Definition no_close (w w' : World) : Prop :=
  exists es,
    trace w' = (trace w ++ es)%list /\
    forallb (fun e => negb (is_close e)) es = true.

(** The trace only grew, and by effects that satisfy [P]. *)
Definition grows_by (P : Effect -> bool) (w w' : World) : Prop :=
  exists es, trace w' = (trace w ++ es)%list /\ forallb P es = true.

(** A pool that is held is not given up. *)
Definition pool_kept (w w' : World) : Prop :=
  pool w <> None -> pool w' <> None.

Definition is_connect (e : Effect) : bool :=
  match e with
  | Connect _ => true
  | _ => false
  end.

Definition is_query (e : Effect) : bool :=
  match e with
  | Query _ _ => true
  | _ => false
  end.

Definition is_console (e : Effect) : bool := negb (is_driver_call e).

(** How many effects of a kind a list holds. *)
Definition count (P : Effect -> bool) (es : list Effect) : nat :=
  length (filter P es).

(** The effects issued between [w] and a later world [w']. *)
Definition issued (w w' : World) : list Effect :=
  skipn (length (trace w)) (trace w').

End Bridge.

(** ** A concrete driver

    One database server that can be reached or not; pools are numbered as
    they are opened and a request is known by the number of its pool.
    Enough of a driver to run the handlers. *)

Module Mock.

Record State : Type :=
  { reachable : bool; live : list nat; next_id : nat }.

Definition ConnectionError : JsError :=
  {| message := "Failed to connect to db:1433 - Could not connect (sequence)";
     stack := "ConnectionError: Failed to connect to db:1433" |}.

Definition RequestError (msg : string) : JsError :=
  {| message := msg; stack := "RequestError: " ++ msg |}.

Definition connect (_ : SqlConfig) (d : State) : (JsError + nat) * State :=
  if reachable d
  then (inr (next_id d),
        {| reachable := true;
           live := next_id d :: live d;
           next_id := S (next_id d) |})
  else (inl ConnectionError, d).

Definition connected (p : nat) (d : State) : bool :=
  existsb (Nat.eqb p) (live d).

Definition request (p : nat) (d : State) : (JsError + nat) * State :=
  (inr p, d).

Definition input (r : nat) (name : string) (value : JsValue) (d : State)
  : (JsError + unit) * State :=
  if (name =? "")%string
  then (inl (RequestError "Invalid parameter name"), d)
  else (inr tt, d).

Definition query (r : nat) (text : string) (d : State)
  : (JsError + QueryResult) * State :=
  if connected r d
  then if (text =? "SELECT 1 AS x")%string
       then (inr {| recordset := Some [JObject [("x", JNumber 1)]] |}, d)
       else if (text =? "SELECT name FROM users WHERE id = @id")%string
       then (inr {| recordset := Some [JObject [("name", JString "ada")]] |}, d)
       else if (text =? "UPDATE users SET name = 'x'")%string
       then (inr {| recordset := None |}, d)
       else (inl (RequestError "Invalid object name 'missing'."), d)
  else (inl (RequestError "Connection is closed."), d).

Definition close (p : nat) (d : State) : (JsError + unit) * State :=
  (inr tt,
   {| reachable := reachable d;
      live := filter (fun q => negb (Nat.eqb p q)) (live d);
      next_id := next_id d |}).

#[local] Instance driver : MssqlDriver :=
  {| Pool := nat;
     Request := nat;
     Db := State;
     sql_connect := connect;
     pool_connected := connected;
     pool_request := request;
     request_input := input;
     request_query := query;
     pool_close := close |}.

(** The database up, and down. *)
Definition up : State := {| reachable := true; live := []; next_id := 0%nat |}.
Definition down : State := {| reachable := false; live := []; next_id := 0%nat |}.

(** Three environments. *)
Definition env_unset : Env := fun _ => None.

Definition env_development : Env :=
  fun k => if (k =? "NODE_ENV")%string then Some "development" else None.

Definition env_test : Env :=
  fun k => if (k =? "NODE_ENV")%string then Some "test" else None.

Definition env_production : Env :=
  fun k => if (k =? "NODE_ENV")%string then Some "production" else None.

End Mock.

(** * The handlers at work on the concrete driver *)

Module Runs.

Import Mock.

Local Open Scope list_scope.

Definition select_one : JsValue :=
  JObject [("query", JString "SELECT 1 AS x")].

Definition select_missing : JsValue :=
  JObject [("query", JString "SELECT x FROM missing")].

Definition select_user : JsValue :=
  JObject [("query", JString "SELECT name FROM users WHERE id = @id");
           ("parameters", JObject [("id", JNumber 5)])].

(** The module just loaded, the database reachable or not. *)
Definition fresh : @World driver := @boot driver up.
Definition cut_off : @World driver := @boot driver down.

Definition world (p : option nat) (d : State) (t : list (@Effect driver))
  : @World driver :=
  @Build_World driver p d t.

(** The database once pool 0 is open. *)
Definition one_pool : State :=
  {| reachable := true; live := [0%nat]; next_id := 1 |}.

(** A statement that returns no rows. *)
Definition update_users : JsValue :=
  JObject [("query", JString "UPDATE users SET name = 'x'")].

(** Requests for the edges of POST /. *)
Definition numeric_query : JsValue := JObject [("query", JNumber 5)].

Definition null_parameters : JsValue :=
  JObject [("query", JString "SELECT 1 AS x"); ("parameters", JNull)].

Definition unnamed_parameter : JsValue :=
  JObject [("query", JString "SELECT 1 AS x");
           ("parameters",
            JObject [("id", JNumber 5); ("", JNumber 1); ("z", JNumber 2)])].

Definition long_query : string :=
  "SELECT a_rather_long_column_name, another_rather_long_column_name FROM a_table_with_a_long_name WHERE id = @id".

Definition env_port : Env :=
  fun k => if (k =? "MSSQL_PORT")%string then Some "1521" else None.

(** The world after one successful POST / on a reachable database. *)
Definition served : @World driver :=
  snd (post_root env_unset select_one fresh).

(** The world after a second POST /, on the pool of the first. *)
Definition served_twice : @World driver :=
  snd (post_root env_unset select_user served).

End Runs.

(** ** A driver that cannot close

    The concrete driver, except that [close] throws. *)

Module Stuck.

Definition CloseError : JsError :=
  {| message := "Connection lost while closing";
     stack := "ConnectionError: Connection lost while closing" |}.

Definition close (p : nat) (d : Mock.State) : (JsError + unit) * Mock.State :=
  (inl CloseError, d).

#[local] Instance driver : MssqlDriver :=
  {| Pool := nat;
     Request := nat;
     Db := Mock.State;
     sql_connect := Mock.connect;
     pool_connected := Mock.connected;
     pool_request := Mock.request;
     request_input := Mock.input;
     request_query := Mock.query;
     pool_close := close |}.

(** A world in which pool 0 is held. *)
Definition holding : @World driver :=
  @Build_World driver (Some 0%nat)
    {| Mock.reachable := true; Mock.live := [0%nat]; Mock.next_id := 1 |} [].

End Stuck.

(** * Properties *)

Section Properties.

Context {drv : MssqlDriver}.
Variable env : Env.

Local Open Scope list_scope.

Ltac unfold_monad :=
  unfold bind, ret, throw, lift, try_catch, emit, call, get_pool, set_pool,
    read_connected in *.

(** ** The pool manager *)

Lemma initializePool_resolves (w : World) (p : Pool) (d : Db) :
  sql_connect (sqlConfig env) (db w) = (inr p, d) ->
  initializePool env w =
    (inr p, {| pool := Some p; db := d;
               trace := trace w ++ [Connect (sqlConfig env); connected_line] |}).
Proof.
  intros Hc. unfold initializePool. unfold_monad. rewrite Hc. cbn.
  now rewrite <- app_assoc.
Qed.

Lemma initializePool_rejects (w : World) (e : JsError) (d : Db) :
  sql_connect (sqlConfig env) (db w) = (inl e, d) ->
  initializePool env w =
    (inl e, {| pool := pool w; db := d;
               trace := trace w ++
                 [Connect (sqlConfig env);
                  ConsoleError "Database connection failed:" (Some e)] |}).
Proof.
  intros Hc. unfold initializePool. unfold_monad. rewrite Hc. cbn.
  now rewrite <- app_assoc.
Qed.

Lemma pool_is_live_false (w : World) :
  no_live_pool w -> pool_is_live w = (inr false, w).
Proof.
  unfold pool_is_live. unfold_monad.
  intros [Hn | (p & Hp & Hc)].
  - now rewrite Hn.
  - rewrite Hp. now rewrite Hc.
Qed.

Lemma pool_is_live_true (w : World) (p : Pool) :
  pool w = Some p -> pool_connected p (db w) = true ->
  pool_is_live w = (inr true, w).
Proof.
  unfold pool_is_live. unfold_monad. intros -> ->. reflexivity.
Qed.

(** Either the pool is live or it is not. *)
Lemma live_or_not (w : World) :
  (exists p, pool w = Some p /\ pool_connected p (db w) = true) \/
  no_live_pool w.
Proof.
  unfold no_live_pool. destruct (pool w) as [p |].
  - destruct (pool_connected p (db w)) eqn:Hc; eauto.
  - auto.
Qed.

(** The three ways the pool check can go. *)
Lemma ensure_pool_keeps (w : World) (p : Pool) :
  pool w = Some p -> pool_connected p (db w) = true ->
  ensure_pool env w = (inr tt, w).
Proof.
  intros Hp Hc. unfold ensure_pool, bind.
  now rewrite (pool_is_live_true w p Hp Hc).
Qed.

Lemma ensure_pool_connects (w : World) (p : Pool) (d : Db) :
  no_live_pool w ->
  sql_connect (sqlConfig env) (db w) = (inr p, d) ->
  ensure_pool env w =
    (inr tt,
     {| pool := Some p; db := d;
        trace := trace w ++ [Connect (sqlConfig env); connected_line] |}).
Proof.
  intros Hn Hs. unfold ensure_pool, bind.
  rewrite (pool_is_live_false w Hn).
  now rewrite (initializePool_resolves w p d Hs).
Qed.

Lemma ensure_pool_rejects (w : World) (e : JsError) (d : Db) :
  no_live_pool w ->
  sql_connect (sqlConfig env) (db w) = (inl e, d) ->
  ensure_pool env w =
    (inl e,
     {| pool := pool w; db := d;
        trace := trace w ++
          [Connect (sqlConfig env);
           ConsoleError "Database connection failed:" (Some e)] |}).
Proof.
  intros Hn Hs. unfold ensure_pool, bind.
  rewrite (pool_is_live_false w Hn).
  now rewrite (initializePool_rejects w e d Hs).
Qed.

(** C4. Before a query runs, a live pool is kept as it is, with nothing
    done; when there is no pool, or the pool reports disconnected,
    [sql.connect] is called with [sqlConfig], and the pool it resolves to
    becomes the module-level [pool].  When that call throws, the error is
    logged and thrown on, and [pool] is left as it was. *)
Theorem ensure_pool_correct (w : World) :
  (forall p, pool w = Some p -> pool_connected p (db w) = true ->
     ensure_pool env w = (inr tt, w)) /\
  (no_live_pool w ->
     forall p d, sql_connect (sqlConfig env) (db w) = (inr p, d) ->
     ensure_pool env w =
       (inr tt,
        {| pool := Some p; db := d;
           trace := trace w ++ [Connect (sqlConfig env); connected_line] |})) /\
  (no_live_pool w ->
     forall e d, sql_connect (sqlConfig env) (db w) = (inl e, d) ->
     ensure_pool env w =
       (inl e,
        {| pool := pool w; db := d;
           trace := trace w ++
             [Connect (sqlConfig env);
              ConsoleError "Database connection failed:" (Some e)] |})).
Proof.
  split; [| split].
  - intros p. apply ensure_pool_keeps.
  - intros Hn p d. now apply ensure_pool_connects.
  - intros Hn e d. now apply ensure_pool_rejects.
Qed.

(** ** Frame rules *)

Section FrameRules.

Variable R : World -> World -> Prop.
Hypothesis R_refl : forall w, R w w.
Hypothesis R_trans : forall a b c, R a b -> R b c -> R a c.

Lemma respects_ret {A} (a : A) : respects R (ret a).
Proof. intros w r w' H. inversion H. subst. apply R_refl. Qed.

Lemma respects_throw {A} (e : JsError) : respects R (@throw _ A e).
Proof. intros w r w' H. inversion H. subst. apply R_refl. Qed.

Lemma respects_lift {A} (x : JsError + A) : respects R (lift x).
Proof. intros w r w' H. inversion H. subst. apply R_refl. Qed.

Lemma respects_get_pool : respects R get_pool.
Proof. intros w r w' H. inversion H. subst. apply R_refl. Qed.

Lemma respects_read_connected (p : Pool) : respects R (read_connected p).
Proof. intros w r w' H. inversion H. subst. apply R_refl. Qed.

Lemma respects_bind {A B} (m : M A) (k : A -> M B) :
  respects R m -> (forall a, respects R (k a)) -> respects R (bind m k).
Proof.
  intros Hm Hk w r w' H. unfold bind in H.
  destruct (m w) as [[e | a] w1] eqn:Em.
  - inversion H. subst. eapply Hm. eassumption.
  - eapply R_trans; [eapply Hm | eapply Hk]; eassumption.
Qed.

Lemma respects_try_catch {A} (m : M A) (h : JsError -> M A) :
  respects R m -> (forall e, respects R (h e)) -> respects R (try_catch m h).
Proof.
  intros Hm Hh w r w' H. unfold try_catch in H.
  destruct (m w) as [[e | a] w1] eqn:Em.
  - eapply R_trans; [eapply Hm | eapply Hh]; eassumption.
  - inversion H. subst. eapply Hm. eassumption.
Qed.

Lemma respects_forEach {A} (f : A -> M unit) (l : list A) :
  (forall a, respects R (f a)) -> respects R (forEach f l).
Proof.
  intros Hf. induction l as [| a l IH]; cbn.
  - apply respects_ret.
  - apply respects_bind; auto.
Qed.

End FrameRules.

Lemma same_pool_refl (w : World) : same_pool w w.
Proof. reflexivity. Qed.

Lemma same_pool_trans (a b c : World) :
  same_pool a b -> same_pool b c -> same_pool a c.
Proof. unfold same_pool. congruence. Qed.

Lemma no_close_refl (w : World) : no_close w w.
Proof. exists []. now rewrite app_nil_r. Qed.

Lemma no_close_trans (a b c : World) :
  no_close a b -> no_close b c -> no_close a c.
Proof.
  intros (es & He & Hes) (fs & Hf & Hfs). exists (es ++ fs). split.
  - now rewrite Hf, He, app_assoc.
  - rewrite forallb_app, Hes, Hfs. reflexivity.
Qed.

Lemma emit_same_pool (e : Effect) : respects same_pool (emit e).
Proof. intros w r w' H. inversion H. reflexivity. Qed.

Lemma call_same_pool {A} (e : Effect) (op : Db -> (JsError + A) * Db) :
  respects same_pool (call e op).
Proof.
  intros w r w' H. unfold call in H. destruct (op (db w)).
  inversion H. reflexivity.
Qed.

Lemma emit_no_close (e : Effect) :
  is_close e = false -> respects no_close (emit e).
Proof.
  intros He w r w' H. inversion H. exists [e]. cbn. now rewrite He.
Qed.

Lemma call_no_close {A} (e : Effect) (op : Db -> (JsError + A) * Db) :
  is_close e = false -> respects no_close (call e op).
Proof.
  intros He w r w' H. unfold call in H. destruct (op (db w)).
  inversion H. exists [e]. cbn. now rewrite He.
Qed.

Lemma set_pool_no_close (p : Pool) : respects no_close (set_pool p).
Proof.
  intros w r w' H. inversion H. exists []. cbn. now rewrite app_nil_r.
Qed.

Create HintDb frames.

#[local] Hint Resolve same_pool_refl same_pool_trans no_close_refl
  no_close_trans : frames.
#[local] Hint Resolve respects_ret respects_throw respects_lift
  respects_get_pool respects_read_connected respects_bind respects_try_catch
  respects_forEach emit_same_pool call_same_pool emit_no_close call_no_close
  set_pool_no_close : frames.

Ltac frame :=
  repeat first
    [ progress intros
    | solve [auto with frames]
    | apply respects_bind | apply respects_try_catch | apply respects_forEach
    | match goal with
      | |- respects _ (match ?x with _ => _ end) => destruct x
      | |- respects _ (let '(_, _) := ?x in _) => destruct x
      end ];
  eauto with frames.

(** Binding parameters and running the query never touch [pool]. *)
Lemma execute_same_pool (query parameters : JsValue) :
  respects same_pool (execute query parameters).
Proof. unfold execute, bind_parameters. frame. Qed.

(** Nor does the catch block. *)
Lemma post_catch_same_pool (error : JsError) :
  respects same_pool (post_catch env error).
Proof. unfold post_catch. frame. Qed.

Lemma initializePool_no_close : respects no_close (initializePool env).
Proof. unfold initializePool. frame. Qed.

Lemma ensure_pool_no_close : respects no_close (ensure_pool env).
Proof.
  pose proof initializePool_no_close.
  unfold ensure_pool, pool_is_live. frame.
Qed.

Lemma execute_no_close (query parameters : JsValue) :
  respects no_close (execute query parameters).
Proof. unfold execute, bind_parameters. frame. Qed.

Lemma post_root_no_close (req_body : JsValue) :
  respects no_close (post_root env req_body).
Proof.
  pose proof ensure_pool_no_close. pose proof execute_no_close.
  unfold post_root, post_try, post_catch. frame.
Qed.

(** ** POST / *)

Lemma truthy_nonempty (text : string) :
  text <> ""%string -> truthy (JString text) = true.
Proof.
  intros Hne. cbn. destruct (String.eqb_spec text ""); [contradiction | reflexivity].
Qed.

(** C2. A body whose [query] is missing or is the empty string is answered
    400 with an [error] field, and the world is left exactly as it was:
    same [pool], same database state, no driver call, no console line. *)
Theorem missing_query_rejected (props : list (string * JsValue)) (w : World) :
  assoc "query" props = None \/ assoc "query" props = Some (JString "") ->
  exists r,
    post_root env (JObject props) w = (inr r, w) /\
    status r = 400 /\
    body r = JObject [("error", JString "Query is required")] /\
    json_has_field "error" (body r) = true.
Proof.
  intros Hq.
  exists (res_json 400 (JObject [("error", JString "Query is required")])).
  repeat split.
  unfold post_root, post_try, destructure, get_prop. unfold_monad.
  destruct Hq as [-> | ->]; reflexivity.
Qed.

Lemma bind_parameters_cons (r : Request) (key : string) (value : JsValue)
    (rest : list (string * JsValue)) (w : World) :
  bind_parameters r ((key, value) :: rest) w =
    match request_input r key value (db w) with
    | (inr _, d) =>
        bind_parameters r rest
          {| pool := pool w; db := d; trace := trace w ++ [Input r key value] |}
    | (inl e, d) =>
        (inl e,
         {| pool := pool w; db := d; trace := trace w ++ [Input r key value] |})
    end.
Proof.
  unfold bind_parameters. cbn. unfold bind, call.
  destruct (request_input r key value (db w)) as [[e | u] d]; reflexivity.
Qed.


Lemma bind_parameters_runs (r : Request) (entries : list (string * JsValue)) :
  forall w, exists w',
    bind_parameters r entries w = (fst (driver_inputs r entries (db w)), w') /\
    db w' = snd (driver_inputs r entries (db w)).
Proof.
  induction entries as [| [key value] rest IH]; intros w.
  - exists w. split; reflexivity.
  - rewrite bind_parameters_cons. cbn.
    destruct (request_input r key value (db w)) as [[e | u] d1] eqn:Ei.
    + eexists. split; reflexivity.
    + destruct (IH {| pool := pool w; db := d1;
                      trace := trace w ++ [Input r key value] |})
        as (w' & Hrun & Hdb).
      exists w'. split; assumption.
Qed.

(** What [execute] returns is decided by the driver's session. *)
Lemma execute_runs (w : World) (p : Pool) (text : string)
    (parameters : JsValue) (entries : list (string * JsValue)) :
  pool w = Some p ->
  Object_entries parameters = inr entries ->
  exists w',
    execute (JString text) parameters w =
      (match fst (driver_session p text entries (db w)) with
       | inr result =>
           match recordset result with
           | Some rows => inr (res_json 200 (JArray rows))
           | None =>
               inl (TypeError
                 "Cannot read properties of undefined (reading 'length')")
           end
       | inl e => inl e
       end, w') /\
    db w' = snd (driver_session p text entries (db w)).
Proof.
  intros Hp He. unfold execute, driver_session. unfold_monad. cbn.
  rewrite Hp. cbn.
  destruct (pool_request p (db w)) as [[e | r] d1] eqn:Er.
  - eexists. split; reflexivity.
  - rewrite He.
    destruct (bind_parameters_runs r entries
                {| pool := Some p; db := d1;
                   trace := (trace w ++
                     [ConsoleLog ["Executing query:";
                                  (substring 0 100 text ++ "...")%string]]) ++
                     [NewRequest p] |})
      as (w2 & Hrun & Hdb).
    rewrite Hrun. cbn in Hdb. cbn.
    destruct (driver_inputs r entries d1) as [[e | u] d2] eqn:Ed; cbn in *.
    + exists w2. split; [reflexivity | assumption].
    + rewrite Hdb.
      destruct (request_query r text d2) as [[e | result] d3] eqn:Eq.
      * eexists. split; reflexivity.
      * cbn. destruct (recordset result) as [rows |].
        -- eexists. split; reflexivity.
        -- eexists. split; reflexivity.
Qed.

#[local] Arguments execute : simpl never.
#[local] Arguments ensure_pool : simpl never.
#[local] Arguments post_root : simpl never.
#[local] Arguments post_catch : simpl never.

(** How a request that passed the [query] check goes on. *)
Lemma post_root_pool_fails (req_body query parameters : JsValue)
    (w w1 : World) (e : JsError) :
  destructure req_body = inr (query, parameters) ->
  truthy query = true ->
  ensure_pool env w = (inl e, w1) ->
  post_root env req_body w = post_catch env e w1.
Proof.
  intros Hd Ht Hp. unfold post_root, post_try, try_catch, bind, lift.
  rewrite Hd, Ht. cbn. now rewrite Hp.
Qed.

Lemma post_root_proceeds (req_body query parameters : JsValue) (w w1 : World) :
  destructure req_body = inr (query, parameters) ->
  truthy query = true ->
  ensure_pool env w = (inr tt, w1) ->
  post_root env req_body w =
    match execute query parameters w1 with
    | (inr r, w') => (inr r, w')
    | (inl e, w') => post_catch env e w'
    end.
Proof.
  intros Hd Ht Hp. unfold post_root, post_try, try_catch, bind, lift.
  rewrite Hd, Ht. cbn. rewrite Hp.
  destruct (execute query parameters w1) as [[e | r] w']; reflexivity.
Qed.

Lemma post_catch_runs (e : JsError) (w : World) :
  post_catch env e w =
    (inr (error_reply env e),
     {| pool := pool w; db := db w;
        trace := trace w ++ [ConsoleError "Query execution error:" (Some e)] |}).
Proof. reflexivity. Qed.

(** When the pool is acquired and the driver accepts the request (the
    request object, every binding and the query) and returns a record
    list, the answer is 200 and its body is that list itself, as a JSON
    array, not an object around it. *)
Theorem recordset_returned_unwrapped
    (req_body parameters : JsValue) (text : string)
    (entries : list (string * JsValue)) (w w1 : World) (p : Pool)
    (rows : list JsValue) (d : Db) :
  destructure req_body = inr (JString text, parameters) ->
  text <> ""%string ->
  Object_entries parameters = inr entries ->
  ensure_pool env w = (inr tt, w1) ->
  pool w1 = Some p ->
  driver_session p text entries (db w1) = (inr {| recordset := Some rows |}, d) ->
  exists w',
    post_root env req_body w = (inr (res_json 200 (JArray rows)), w') /\
    db w' = d /\ pool w' = Some p.
Proof.
  intros Hd Hne He Hpool Hp Hs.
  destruct (execute_runs w1 p text parameters entries Hp He) as (w' & Hrun & Hdb).
  rewrite Hs in Hrun, Hdb. cbn in Hrun, Hdb.
  exists w'. repeat split.
  - rewrite (post_root_proceeds _ _ _ _ _ Hd (truthy_nonempty text Hne) Hpool).
    now rewrite Hrun.
  - assumption.
  - rewrite <- Hp. eapply execute_same_pool. eassumption.
Qed.

(** A statement the driver runs without returning a record list leaves
    [result.recordset] undefined: reading its [length] throws, and the
    answer is the 500 of the catch block. *)
Lemma no_recordset_answered_500
    (req_body parameters : JsValue) (text : string)
    (entries : list (string * JsValue)) (w w1 : World) (p : Pool) (d : Db) :
  destructure req_body = inr (JString text, parameters) ->
  text <> ""%string ->
  Object_entries parameters = inr entries ->
  ensure_pool env w = (inr tt, w1) ->
  pool w1 = Some p ->
  driver_session p text entries (db w1) = (inr {| recordset := None |}, d) ->
  exists w',
    post_root env req_body w =
      (inr (error_reply env
              (TypeError
                 "Cannot read properties of undefined (reading 'length')")),
       w').
Proof.
  intros Hd Hne He Hpool Hp Hs.
  destruct (execute_runs w1 p text parameters entries Hp He) as (w' & Hrun & _).
  rewrite Hs in Hrun. cbn in Hrun.
  rewrite (post_root_proceeds _ _ _ _ _ Hd (truthy_nonempty text Hne) Hpool).
  rewrite Hrun, post_catch_runs. eexists. reflexivity.
Qed.

#[local] Arguments bind_parameters : simpl never.

Lemma driver_calls_app (a b : list Effect) :
  driver_calls (a ++ b) = driver_calls a ++ driver_calls b.
Proof. apply filter_app. Qed.

Lemma driver_calls_bindings (r : Request) (entries : list (string * JsValue)) :
  driver_calls (bindings r entries) = bindings r entries.
Proof.
  induction entries as [| [key value] rest IH]; cbn; [reflexivity |].
  f_equal. exact IH.
Qed.





(** C3, as the code has it. An error thrown while the pool is acquired, or
    by the driver while the request is made, bound and run, is answered
    500 with the error's message under [error]; the stack is sent under
    [details] exactly when [NODE_ENV] is [development]. *)
Theorem failure_answered_500
    (req_body query parameters : JsValue) (w : World) (e : JsError) :
  destructure req_body = inr (query, parameters) ->
  truthy query = true ->
  (exists w1, ensure_pool env w = (inl e, w1)) \/
  (exists text entries w1 p d,
     query = JString text /\
     Object_entries parameters = inr entries /\
     ensure_pool env w = (inr tt, w1) /\
     pool w1 = Some p /\
     driver_session p text entries (db w1) = (inl e, d)) ->
  exists r w',
    post_root env req_body w = (inr r, w') /\
    status r = 500 /\
    body r =
      JObject [("error", JString (message e));
               ("details",
                if env_is env "NODE_ENV" "development"
                then JString (stack e) else JUndefined)] /\
    error_field r = JString (message e) /\
    json_has_field "details" (body r) = env_is env "NODE_ENV" "development".
Proof.
  intros Hd Ht Hfail.
  assert (Hreply : forall w1,
            post_root env req_body w = post_catch env e w1 ->
            exists r w',
              post_root env req_body w = (inr r, w') /\
              status r = 500 /\
              body r =
                JObject [("error", JString (message e));
                         ("details",
                          if env_is env "NODE_ENV" "development"
                          then JString (stack e) else JUndefined)] /\
              error_field r = JString (message e) /\
              json_has_field "details" (body r) =
                env_is env "NODE_ENV" "development").
  { intros w1 Hrun. rewrite Hrun, post_catch_runs.
    do 2 eexists. split; [reflexivity |]. repeat split.
    cbn. destruct (env_is env "NODE_ENV" "development"); reflexivity. }
  destruct Hfail as [(w1 & Hp) | (text & entries & w1 & p & d & -> & He & Hp & Hpool & Hs)].
  - apply (Hreply w1). now apply post_root_pool_fails with (query := query)
      (parameters := parameters).
  - destruct (execute_runs w1 p text parameters entries Hpool He)
      as (w2 & Hrun & _).
    rewrite Hs in Hrun. cbn in Hrun.
    apply (Hreply w2).
    rewrite (post_root_proceeds _ _ _ _ _ Hd Ht Hp). now rewrite Hrun.
Qed.

(** C9. The catch block leaves [pool] as it finds it.  So when the request
    had to connect, got a pool, and the driver then threw, the answer is
    500, [pool] is the pool just made, and no [close] was called. *)
Theorem error_branch_keeps_pool :
  (forall e, respects same_pool (post_catch env e)) /\
  (forall (req_body parameters : JsValue) (text : string)
          (entries : list (string * JsValue)) (w : World) (p : Pool)
          (d d' : Db) (e : JsError),
     destructure req_body = inr (JString text, parameters) ->
     text <> ""%string ->
     Object_entries parameters = inr entries ->
     no_live_pool w ->
     sql_connect (sqlConfig env) (db w) = (inr p, d) ->
     driver_session p text entries d = (inl e, d') ->
     exists w',
       post_root env req_body w = (inr (error_reply env e), w') /\
       pool w' = Some p /\ db w' = d' /\ no_close w w').
Proof.
  split; [exact post_catch_same_pool |].
  intros req_body parameters text entries w p d d' e Hd Hne He Hn Hc Hs.
  pose proof (ensure_pool_connects w p d Hn Hc) as Hnew.
  set (w1 := {| pool := Some p; db := d;
                trace := trace w ++ [Connect (sqlConfig env); connected_line] |})
    in Hnew.
  destruct (execute_runs w1 p text parameters entries eq_refl He)
    as (w2 & Hrun & Hdb).
  cbn [db w1] in Hrun, Hdb. rewrite Hs in Hrun, Hdb. cbn in Hrun, Hdb.
  pose proof (post_root_proceeds _ _ _ _ _ Hd (truthy_nonempty text Hne) Hnew)
    as Hpost.
  rewrite Hrun, post_catch_runs in Hpost.
  eexists. split; [exact Hpost |]. cbn. repeat split.
  - apply (execute_same_pool _ _ _ _ _ Hrun).
  - assumption.
  - eapply post_root_no_close. exact Hpost.
Qed.

(** C10, as the code has it. Whatever the body, POST / ends in a
    response: an error thrown anywhere in the [try] block becomes the 500
    reply of the catch block.  A body that is [undefined] or [null] makes
    the destructuring throw and is answered 500.  A body that is an
    array, a string, a number or a boolean destructures to no [query] and
    is answered 400, the world untouched. *)
Theorem post_root_always_answers (req_body : JsValue) (w : World) :
  (exists r w', react env (PostRoot req_body) w = (Responded r, w')) /\
  (forall e w1,
     post_try env req_body w = (inl e, w1) ->
     exists w', post_root env req_body w = (inr (error_reply env e), w')) /\
  (req_body = JUndefined \/ req_body = JNull ->
   exists r w', post_root env req_body w = (inr r, w') /\ status r = 500) /\
  (match req_body with
   | JArray _ | JString _ | JNumber _ | JBool _ => True
   | _ => False
   end ->
   exists r, post_root env req_body w = (inr r, w) /\ status r = 400).
Proof.
  repeat split.
  - unfold react, post_root, try_catch.
    destruct (post_try env req_body w) as [[e | r] w1].
    + rewrite post_catch_runs. do 2 eexists. reflexivity.
    + do 2 eexists. reflexivity.
  - intros e w1 Ht. unfold post_root, try_catch. rewrite Ht, post_catch_runs.
    eexists. reflexivity.
  - intros [-> | ->]; do 2 eexists; split; reflexivity.
  - destruct req_body; intros H; try contradiction;
      eexists; split; reflexivity.
Qed.

(** ** [pool] stays [null] until a connection is made *)

Lemma logged_refl (w : World) : pool_changes_logged w w.
Proof. split; auto. Qed.

Lemma logged_trans (a b c : World) :
  pool_changes_logged a b -> pool_changes_logged b c ->
  pool_changes_logged a c.
Proof.
  intros [Hab Mab] [Hbc Mbc]. split; [| auto].
  destruct Hbc as [Hbc | Hbc]; [| auto].
  destruct Hab as [Hab | Hab]; [left; congruence | auto].
Qed.

Lemma emit_logged (e : Effect) : respects pool_changes_logged (emit e).
Proof.
  intros w r w' H. inversion H. split; cbn; [auto |].
  intros x Hx. apply in_or_app. auto.
Qed.

Lemma call_logged {A} (e : Effect) (op : Db -> (JsError + A) * Db) :
  respects pool_changes_logged (call e op).
Proof.
  intros w r w' H. unfold call in H. destruct (op (db w)).
  inversion H. split; cbn; [auto |].
  intros x Hx. apply in_or_app. auto.
Qed.

Lemma initializePool_logged : respects pool_changes_logged (initializePool env).
Proof.
  intros w r w' H.
  destruct (sql_connect (sqlConfig env) (db w)) as [[e | p] d] eqn:Ec.
  - rewrite (initializePool_rejects w e d Ec) in H. inversion H.
    split; cbn; [auto |]. intros x Hx. apply in_or_app. auto.
  - rewrite (initializePool_resolves w p d Ec) in H. inversion H.
    split; cbn.
    + right. apply in_or_app. right. cbn. auto.
    + intros x Hx. apply in_or_app. auto.
Qed.

Lemma ensure_pool_logged : respects pool_changes_logged (ensure_pool env).
Proof.
  intros w r w' H.
  destruct (live_or_not w) as [(p & Hp & Hc) | Hn].
  - rewrite (ensure_pool_keeps w p Hp Hc) in H. inversion H.
    apply logged_refl.
  - destruct (sql_connect (sqlConfig env) (db w)) as [[e | p] d] eqn:Ec.
    + rewrite (ensure_pool_rejects w e d Hn Ec) in H. inversion H.
      split; cbn; [auto |]. intros x Hx. apply in_or_app. auto.
    + rewrite (ensure_pool_connects w p d Hn Ec) in H. inversion H.
      split; cbn.
      * right. apply in_or_app. right. cbn. auto.
      * intros x Hx. apply in_or_app. auto.
Qed.

#[local] Hint Resolve logged_refl logged_trans emit_logged call_logged
  initializePool_logged ensure_pool_logged : frames.

Lemma post_root_logged (req_body : JsValue) :
  respects pool_changes_logged (post_root env req_body).
Proof.
  unfold post_root, post_try, post_catch, execute, bind_parameters. frame.
Qed.

Lemma on_listen_logged : respects pool_changes_logged (on_listen env).
Proof. unfold on_listen. frame. Qed.

Lemma on_sigterm_logged : respects pool_changes_logged on_sigterm.
Proof. unfold on_sigterm. frame. Qed.

Lemma react_logged (s : Stimulus) (w w' : World) (o : Outcome) :
  react env s w = (o, w') -> pool_changes_logged w w'.
Proof.
  destruct s; unfold react; intros H.
  - destruct (on_listen env w) as [r w1] eqn:E. inversion H. subst.
    eapply on_listen_logged. eassumption.
  - inversion H. apply logged_refl.
  - inversion H. apply logged_refl.
  - destruct (post_root env req_body w) as [r w1] eqn:E. inversion H. subst.
    eapply post_root_logged. eassumption.
  - destruct (on_sigterm w) as [r w1] eqn:E. inversion H. subst.
    eapply on_sigterm_logged. eassumption.
Qed.

(** From the module as loaded, through any callbacks: [pool] is [null]
    unless the console shows that a connection was made. *)
Lemma null_until_connected (stimuli : list Stimulus) :
  forall w,
    pool w = None \/ In connected_line (trace w) ->
    pool (run env stimuli w) = None \/
    In connected_line (trace (run env stimuli w)).
Proof.
  induction stimuli as [| s rest IH]; intros w Hw; [exact Hw |].
  cbn [run]. destruct (react env s w) as [o w1] eqn:Er.
  assert (Hw1 : pool w1 = None \/ In connected_line (trace w1)).
  { destruct (react_logged s w w1 o Er) as [[Hp | Hl] Hmono].
    - destruct Hw as [Hw | Hw]; [left; congruence | right; auto].
    - right. exact Hl. }
  destruct (keeps_running o); [apply IH |]; exact Hw1.
Qed.

(** ** What a 200 tells *)

Lemma execute_answer_inv (query parameters : JsValue) (w w' : World)
    (r : Response) :
  execute query parameters w = (inr r, w') ->
  exists p rq text d1 d2 res,
    pool w = Some p /\
    pool_request p (db w) = (inr rq, d1) /\
    request_query rq text d2 = (inr res, db w').
Proof.
  intros H. unfold execute in H.
  destruct query as [| | b | z | text | items | props];
    try (unfold throw in H; discriminate).
  unfold bind, emit, call, get_pool, lift, ret, throw in H. cbn in H.
  destruct (pool w) as [p |] eqn:Ep; [| discriminate]. cbn in H.
  destruct (pool_request p (db w)) as [[e | rq] d1] eqn:Er; [discriminate |].
  destruct (Object_entries parameters) as [e | entries]; [discriminate |].
  destruct (bind_parameters rq entries _) as [[e | u] w3]; [discriminate |].
  destruct (request_query rq text (db w3)) as [[e | res] d3] eqn:Eq;
    [discriminate |].
  destruct (recordset res) as [rows |]; [| discriminate].
  inversion H. subst. cbn.
  exists p, rq, text, d1, (db w3), res. auto.
Qed.

Lemma post_root_200_inv (req_body : JsValue) (w w' : World) (r : Response) :
  post_root env req_body w = (inr r, w') ->
  status r = 200 ->
  exists query parameters w1, execute query parameters w1 = (inr r, w').
Proof.
  intros H Hs. unfold post_root, try_catch, post_try, bind, lift in H.
  destruct (destructure req_body) as [e | [query parameters]].
  - rewrite post_catch_runs in H. inversion H. subst. discriminate.
  - destruct (truthy query); cbn in H.
    + destruct (ensure_pool env w) as [[e | u] w1].
      * rewrite post_catch_runs in H. inversion H. subst. discriminate.
      * destruct (execute query parameters w1) as [[e | r0] w2] eqn:Ex.
        -- rewrite post_catch_runs in H. inversion H. subst. discriminate.
        -- inversion H. subst. eauto.
    + inversion H. subst. discriminate.
Qed.

Lemma post_root_answers (req_body : JsValue) (w : World) :
  exists r w', post_root env req_body w = (inr r, w').
Proof.
  unfold post_root, try_catch.
  destruct (post_try env req_body w) as [[e | r] w1].
  - rewrite post_catch_runs. eauto.
  - eauto.
Qed.

(** Past the [query] check, the pool check comes first and nothing later
    closes a pool. *)
Lemma post_root_after_pool_check (req_body query parameters : JsValue)
    (w w2 : World) (r : JsError + Response) :
  destructure req_body = inr (query, parameters) ->
  truthy query = true ->
  post_root env req_body w = (r, w2) ->
  exists res w1, ensure_pool env w = (res, w1) /\ no_close w1 w2.
Proof.
  intros Hd Ht H.
  destruct (ensure_pool env w) as [[e | []] w1] eqn:Ep.
  - exists (inl e), w1. split; [reflexivity |].
    rewrite (post_root_pool_fails _ _ _ _ _ _ Hd Ht Ep) in H.
    rewrite post_catch_runs in H. inversion H.
    exists [ConsoleError "Query execution error:" (Some e)]. split; reflexivity.
  - exists (inr tt), w1. split; [reflexivity |].
    rewrite (post_root_proceeds _ _ _ _ _ Hd Ht Ep) in H.
    destruct (execute query parameters w1) as [[e | r0] w3] eqn:Ex.
    + rewrite post_catch_runs in H. inversion H.
      eapply no_close_trans; [eapply execute_no_close; eassumption |].
      exists [ConsoleError "Query execution error:" (Some e)].
      split; reflexivity.
    + inversion H. subst. eapply execute_no_close. eassumption.
Qed.

(** ** GET /health, startup, shutdown *)

(** C5, as the code has it. As long as no connection was made (the console
    never showed one), GET /health answers [connected: null], the value of
    [pool && pool.connected] when [pool] is [null].  After a POST /
    answered 200 it answers [connected: true], with a driver on which a
    query only succeeds over a pool that reports connected afterwards. *)
Theorem health_reports_connection :
  (forall stimuli d,
     ~ In connected_line (trace (run env stimuli (boot d))) ->
     exists h,
       react env GetHealth (run env stimuli (boot d)) =
         (Responded h, run env stimuli (boot d)) /\
       status h = 200 /\
       get_prop (body h) "connected" = JNull) /\
  ((forall p d rq d1 text d2 res d3,
      pool_request p d = (inr rq, d1) ->
      request_query rq text d2 = (inr res, d3) ->
      pool_connected p d3 = true) ->
   forall req_body w r w',
     post_root env req_body w = (inr r, w') ->
     status r = 200 ->
     exists h,
       react env GetHealth w' = (Responded h, w') /\
       status h = 200 /\
       get_prop (body h) "connected" = JBool true).
Proof.
  split.
  - intros stimuli d Hnot.
    destruct (null_until_connected stimuli (boot d) (or_introl eq_refl))
      as [Hnull | Hline]; [| contradiction].
    eexists. split; [reflexivity |]. split; [reflexivity |].
    cbn. unfold connected_flag. now rewrite Hnull.
  - intros Hlaw req_body w r w' Hrun Hs.
    destruct (post_root_200_inv req_body w w' r Hrun Hs)
      as (query & parameters & w1 & Hex).
    destruct (execute_answer_inv query parameters w1 w' r Hex)
      as (p & rq & text & d1 & d2 & res & Hp & Hreq & Hq).
    pose proof (execute_same_pool query parameters w1 _ w' Hex) as Hsame.
    unfold same_pool in Hsame. rewrite Hp in Hsame.
    eexists. split; [reflexivity |]. split; [reflexivity |].
    cbn. unfold connected_flag. rewrite Hsame.
    now rewrite (Hlaw p (db w1) rq d1 text d2 res (db w') Hreq Hq).
Qed.

(** C6. When [sql.connect] throws at startup the listen callback logs the
    failure twice and returns: nothing escapes it, the process goes on
    serving, and [pool] is still [null].  The next POST / that carries a
    query then begins by calling [sql.connect] again. *)
Theorem startup_failure_swallowed (w : World) (e : JsError) (d : Db) :
  pool w = None ->
  sql_connect (sqlConfig env) (db w) = (inl e, d) ->
  exists w1,
    react env Listening w = (Returned, w1) /\
    keeps_running Returned = true /\
    pool w1 = None /\
    trace w1 =
      trace w ++
        [ConsoleLog [("MSSQL Bridge listening on port " ++ PORT env)%string];
         Connect (sqlConfig env);
         ConsoleError "Database connection failed:" (Some e);
         ConsoleError "Failed to initialize database connection" None] /\
    forall req_body query parameters,
      destructure req_body = inr (query, parameters) ->
      truthy query = true ->
      exists r w2 rest,
        react env (PostRoot req_body) w1 = (Responded r, w2) /\
        trace w2 = trace w1 ++ Connect (sqlConfig env) :: rest.
Proof.
  intros Hnull Hc.
  set (w0 := {| pool := pool w; db := db w;
                trace := trace w ++
                  [ConsoleLog [("MSSQL Bridge listening on port "
                                ++ PORT env)%string]] |}).
  pose proof (initializePool_rejects w0 e d Hc) as Hinit.
  eexists. split; [| split; [reflexivity | split; [| split]]].
  - unfold react, on_listen, bind, try_catch, emit, ret.
    fold w0. rewrite Hinit. reflexivity.
  - exact Hnull.
  - cbn. repeat rewrite <- app_assoc. reflexivity.
  - intros req_body query parameters Hd Ht.
    match goal with
    | |- context [react env (PostRoot req_body) ?x] => set (w1 := x)
    end.
    destruct (post_root_answers req_body w1) as (r & w2 & Hrun).
    destruct (post_root_after_pool_check _ _ _ _ _ _ Hd Ht Hrun)
      as (res & w1' & Hp & (es & Hes & _)).
    assert (Hn : no_live_pool w1) by (left; exact Hnull).
    exists r, w2. unfold react. rewrite Hrun. cbn [outcome_of].
    destruct (sql_connect (sqlConfig env) (db w1)) as [[e' | p] d'] eqn:Ec.
    + rewrite (ensure_pool_rejects w1 e' d' Hn Ec) in Hp. inversion Hp.
      subst w1'.
      eexists. split; [reflexivity |]. rewrite Hes. cbn [trace].
      rewrite <- app_assoc. reflexivity.
    + rewrite (ensure_pool_connects w1 p d' Hn Ec) in Hp. inversion Hp.
      subst w1'.
      eexists. split; [reflexivity |]. rewrite Hes. cbn [trace].
      rewrite <- app_assoc. reflexivity.
Qed.

(** On SIGTERM, with no pool held the process exits with code 0 and
    no driver call is made; with a pool held, [close] is called on it
    once and, when that call returns, the process exits with code 0. *)
Theorem sigterm_closes_pool_and_exits (w : World) :
  (pool w = None ->
   react env Sigterm w =
     (Exited 0,
      {| pool := None; db := db w;
         trace := trace w ++
           [ConsoleLog
              ["SIGTERM signal received: closing MSSQL connection"]] |})) /\
  (forall p d,
     pool w = Some p ->
     pool_close p (db w) = (inr tt, d) ->
     react env Sigterm w =
       (Exited 0,
        {| pool := Some p; db := d;
           trace := trace w ++
             [ConsoleLog
                ["SIGTERM signal received: closing MSSQL connection"];
              Close p] |})).
Proof.
  split.
  - intros Hnull. unfold react, on_sigterm, bind, emit, get_pool, ret. cbn.
    now rewrite Hnull.
  - intros p d Hp Hc.
    unfold react, on_sigterm, bind, emit, get_pool, call, ret. cbn.
    rewrite Hp. cbn. rewrite Hc. cbn. now rewrite <- app_assoc.
Qed.

(** X11. When [pool.close()] throws, the error leaves the handler and
    [process.exit] is not reached. *)
Lemma sigterm_close_throws (w : World) (p : Pool) (e : JsError) (d : Db) :
  pool w = Some p ->
  pool_close p (db w) = (inl e, d) ->
  fst (react env Sigterm w) = Unhandled e.
Proof.
  intros Hp Hc.
  unfold react, on_sigterm, bind, emit, get_pool, call, ret. cbn.
  rewrite Hp. cbn. now rewrite Hc.
Qed.

(** * Further properties of the handlers *)

(** ** What was issued between two worlds *)

Lemma issued_app (w w' : World) (es : list Effect) :
  trace w' = trace w ++ es -> issued w w' = es.
Proof.
  intros H. unfold issued. rewrite H, skipn_app, skipn_all, Nat.sub_diag.
  reflexivity.
Qed.

Lemma grows_by_refl (P : Effect -> bool) (w : World) : grows_by P w w.
Proof. exists []. now rewrite app_nil_r. Qed.

Lemma grows_by_trans (P : Effect -> bool) (a b c : World) :
  grows_by P a b -> grows_by P b c -> grows_by P a c.
Proof.
  intros (es & He & Hes) (fs & Hf & Hfs). exists (es ++ fs). split.
  - now rewrite Hf, He, app_assoc.
  - rewrite forallb_app, Hes, Hfs. reflexivity.
Qed.

Lemma grows_by_issued (P : Effect -> bool) (w w' : World) :
  grows_by P w w' ->
  trace w' = trace w ++ issued w w' /\ forallb P (issued w w') = true.
Proof.
  intros (es & He & Hes). rewrite (issued_app w w' es He). auto.
Qed.

Lemma issued_trans (P Q : Effect -> bool) (a b c : World) :
  grows_by P a b -> grows_by Q b c -> issued a c = issued a b ++ issued b c.
Proof.
  intros Hab Hbc.
  destruct (grows_by_issued P a b Hab) as [Eab _].
  destruct (grows_by_issued Q b c Hbc) as [Ebc _].
  apply issued_app. now rewrite Ebc, Eab at 1; rewrite app_assoc.
Qed.

Lemma count_app (P : Effect -> bool) (a b : list Effect) :
  count P (a ++ b) = (count P a + count P b)%nat.
Proof. unfold count. now rewrite filter_app, length_app. Qed.

Lemma count_none (P Q : Effect -> bool) (es : list Effect) :
  (forall e, Q e = true -> P e = false) ->
  forallb Q es = true -> count P es = 0%nat.
Proof.
  intros HPQ. induction es as [| e es IH]; cbn; [reflexivity |].
  intros H. apply andb_prop in H. destruct H as [He Hes].
  unfold count in *. cbn. rewrite (HPQ e He). auto.
Qed.

Lemma emit_grows (P : Effect -> bool) (e : Effect) :
  P e = true -> respects (grows_by P) (emit e).
Proof.
  intros He w r w' H. inversion H. exists [e]. cbn. now rewrite He.
Qed.

Lemma call_grows {A} (P : Effect -> bool) (e : Effect)
    (op : Db -> (JsError + A) * Db) :
  P e = true -> respects (grows_by P) (call e op).
Proof.
  intros He w r w' H. unfold call in H. destruct (op (db w)).
  inversion H. exists [e]. cbn. now rewrite He.
Qed.

Lemma set_pool_grows (P : Effect -> bool) (p : Pool) :
  respects (grows_by P) (set_pool p).
Proof.
  intros w r w' H. inversion H. exists []. cbn. now rewrite app_nil_r.
Qed.

Lemma kept_refl (w : World) : pool_kept w w.
Proof. intros H. exact H. Qed.

Lemma kept_trans (a b c : World) :
  pool_kept a b -> pool_kept b c -> pool_kept a c.
Proof. unfold pool_kept. auto. Qed.

Lemma emit_kept (e : Effect) : respects pool_kept (emit e).
Proof. intros w r w' H. inversion H. intros Hp. exact Hp. Qed.

Lemma call_kept {A} (e : Effect) (op : Db -> (JsError + A) * Db) :
  respects pool_kept (call e op).
Proof.
  intros w r w' H. unfold call in H. destruct (op (db w)).
  inversion H. intros Hp. exact Hp.
Qed.

Lemma set_pool_kept (p : Pool) : respects pool_kept (set_pool p).
Proof. intros w r w' H. inversion H. intros _. discriminate. Qed.

#[local] Hint Resolve grows_by_refl grows_by_trans emit_grows call_grows
  set_pool_grows kept_refl kept_trans emit_kept call_kept set_pool_kept
  : frames.

(** ** The pool handle over the life of the process *)

Lemma react_kept (s : Stimulus) (w : World) :
  pool_kept w (snd (react env s w)).
Proof.
  assert (Hpost : forall b, respects pool_kept (post_root env b)).
  { intros b.
    unfold post_root, post_try, post_catch, ensure_pool, pool_is_live,
      initializePool, execute, bind_parameters. frame. }
  assert (Hlisten : respects pool_kept (on_listen env)).
  { unfold on_listen, initializePool. frame. }
  assert (Hterm : respects pool_kept on_sigterm).
  { unfold on_sigterm. frame. }
  destruct s; unfold react.
  - destruct (on_listen env w) as [r w1] eqn:E. eapply Hlisten, E.
  - apply kept_refl.
  - apply kept_refl.
  - destruct (post_root env req_body w) as [r w1] eqn:E. eapply Hpost, E.
  - destruct (on_sigterm w) as [r w1] eqn:E. eapply Hterm, E.
Qed.

(** X8. Once a pool is held, no callback sets [pool] back to [null]: the
    handle is replaced at most, whatever the requests, failures and
    signals that follow. *)
Theorem pool_never_reset (stimuli : list Stimulus) :
  forall w, pool w <> None -> pool (run env stimuli w) <> None.
Proof.
  induction stimuli as [| s rest IH]; intros w Hw; [exact Hw |].
  cbn [run]. pose proof (react_kept s w Hw) as Hk.
  destruct (react env s w) as [o w1]. cbn [snd] in Hk.
  destruct (keeps_running o); [apply IH |]; exact Hk.
Qed.

Lemma on_listen_no_close : respects no_close (on_listen env).
Proof. pose proof initializePool_no_close. unfold on_listen. frame. Qed.

Lemma react_no_close (s : Stimulus) (w : World) :
  s <> Sigterm -> no_close w (snd (react env s w)).
Proof.
  intros Hs. destruct s; unfold react; try contradiction.
  - destruct (on_listen env w) as [r w1] eqn:E. eapply on_listen_no_close, E.
  - apply no_close_refl.
  - apply no_close_refl.
  - destruct (post_root env req_body w) as [r w1] eqn:E.
    eapply post_root_no_close, E.
Qed.

(** X9. Nothing but the SIGTERM handler closes a pool: through startup and
    any requests, also those that replace a disconnected pool, no
    [close] is ever called. *)
Theorem only_sigterm_closes (stimuli : list Stimulus) :
  forall w, ~ In Sigterm stimuli -> no_close w (run env stimuli w).
Proof.
  induction stimuli as [| s rest IH]; intros w Hnot; [apply no_close_refl |].
  cbn [run].
  assert (Hs : s <> Sigterm) by (intros ->; apply Hnot; left; reflexivity).
  pose proof (react_no_close s w Hs) as Hstep.
  destruct (react env s w) as [o w1]. cbn [snd] in Hstep.
  destruct (keeps_running o); [| exact Hstep].
  eapply no_close_trans; [exact Hstep |].
  apply IH. intros Hin. apply Hnot. right. exact Hin.
Qed.

(** X1. GET / and GET /health answer 200 and leave the world as it is; both
    carry the same [connected] value, and it is [true] exactly when a
    pool is held and reports connected. *)
Theorem get_endpoints_read_only (w : World) :
  exists h r,
    react env GetHealth w = (Responded h, w) /\
    react env GetRoot w = (Responded r, w) /\
    status h = 200 /\ status r = 200 /\
    get_prop (body h) "connected" = get_prop (body r) "connected" /\
    (get_prop (body h) "connected" = JBool true <->
     exists p, pool w = Some p /\ pool_connected p (db w) = true).
Proof.
  do 2 eexists. repeat (split; [reflexivity |]).
  cbn. unfold connected_flag. destruct (pool w) as [p |].
  - split.
    + intros H. inversion H. eauto.
    + intros (q & Hq & Hc). inversion Hq. subst. now rewrite Hc.
  - split; [discriminate |]. intros (q & Hq & _). discriminate.
Qed.

(** ** The replies of POST / *)

Lemma execute_reply (query parameters : JsValue) (w w' : World) (r : Response) :
  execute query parameters w = (inr r, w') ->
  exists rows, r = res_json 200 (JArray rows).
Proof.
  intros H. unfold execute in H.
  destruct query as [| | b | z | text | items | props];
    try (unfold throw in H; discriminate).
  unfold bind, emit, call, get_pool, lift, ret, throw in H. cbn in H.
  destruct (pool w) as [p |]; [| discriminate]. cbn in H.
  destruct (pool_request p (db w)) as [[e | rq] d1]; [discriminate |].
  destruct (Object_entries parameters) as [e | entries]; [discriminate |].
  destruct (bind_parameters rq entries _) as [[e | u] w3]; [discriminate |].
  destruct (request_query rq text (db w3)) as [[e | res] d3]; [discriminate |].
  destruct (recordset res) as [rows |]; [| discriminate].
  inversion H. eauto.
Qed.

(** The three ways POST / can end. *)
Lemma post_root_inv (req_body : JsValue) (w w' : World) (r : Response) :
  post_root env req_body w = (inr r, w') ->
  (exists e, r = error_reply env e) \/
  (r = res_json 400 (JObject [("error", JString "Query is required")]) /\
   w' = w) \/
  (exists rows, r = res_json 200 (JArray rows)).
Proof.
  intros H. unfold post_root, try_catch, post_try, bind, lift in H.
  destruct (destructure req_body) as [e | [query parameters]].
  - rewrite post_catch_runs in H. inversion H. eauto.
  - destruct (truthy query); cbn in H.
    + destruct (ensure_pool env w) as [[e | u] w1].
      * rewrite post_catch_runs in H. inversion H. eauto.
      * destruct (execute query parameters w1) as [[e | r0] w2] eqn:Ex.
        -- rewrite post_catch_runs in H. inversion H. eauto.
        -- inversion H. subst. right. right. eapply execute_reply, Ex.
    + inversion H. auto.
Qed.

(** X3. Every reply of POST / is a 200 whose body is an array, or a 400 or a
    500 whose body carries a string under [error]. *)
Theorem post_root_reply_shape (req_body : JsValue) (w w' : World) (r : Response) :
  post_root env req_body w = (inr r, w') ->
  (status r = 200 /\ exists rows, body r = JArray rows) \/
  ((status r = 400 \/ status r = 500) /\
   exists msg, error_field r = JString msg).
Proof.
  intros H.
  destruct (post_root_inv req_body w w' r H)
    as [(e & ->) | [(-> & _) | (rows & ->)]].
  - right. split; [right; reflexivity | exists (message e); reflexivity].
  - right. split; [left; reflexivity | eexists; reflexivity].
  - left. split; [reflexivity | exists rows; reflexivity].
Qed.

(** X2. With a body that can be destructured, the reply is 400 exactly when
    [query] is falsy: missing, [null], [false], [0] or the empty string.
    Such a request leaves the world untouched, whatever [parameters] is
    and whatever the state of the pool. *)
Theorem bad_request_iff_falsy_query
    (req_body query parameters : JsValue) (w w' : World) (r : Response) :
  destructure req_body = inr (query, parameters) ->
  post_root env req_body w = (inr r, w') ->
  (status r = 400 <-> truthy query = false) /\
  (truthy query = false ->
   w' = w /\ body r = JObject [("error", JString "Query is required")]).
Proof.
  intros Hd H. destruct (truthy query) eqn:Ht.
  - split; [| discriminate]. split; [| discriminate]. intros Hs.
    destruct (post_root_inv req_body w w' r H)
      as [(e & ->) | [(-> & _) | (rows & ->)]]; try discriminate.
    unfold post_root, try_catch, post_try, bind, lift in H.
    rewrite Hd, Ht in H. cbn in H.
    destruct (ensure_pool env w) as [[e | u] w1].
    + rewrite post_catch_runs in H. inversion H.
    + destruct (execute query parameters w1) as [[e | r0] w2] eqn:Ex.
      * rewrite post_catch_runs in H. inversion H.
      * inversion H. subst.
        destruct (execute_reply _ _ _ _ _ Ex) as (rows & Hr). discriminate.
  - unfold post_root, try_catch, post_try, bind, lift, ret in H.
    rewrite Hd, Ht in H. cbn in H. inversion H. subst.
    split; [split; reflexivity |]. intros _. split; reflexivity.
Qed.

(** X4. A truthy [query] that is not a string (a number, [true], an array, an
    object) has no [substring] method: the reply is 500, but only after
    the pool check has run, so a connection made for this request stays.
    The driver is asked for no request object and no query. *)
Theorem non_string_query_answered_500
    (req_body query parameters : JsValue) (w w1 : World) :
  destructure req_body = inr (query, parameters) ->
  truthy query = true ->
  (forall text, query <> JString text) ->
  ensure_pool env w = (inr tt, w1) ->
  post_root env req_body w =
    (inr (error_reply env (TypeError "query.substring is not a function")),
     {| pool := pool w1; db := db w1;
        trace := trace w1 ++
          [ConsoleError "Query execution error:"
             (Some (TypeError "query.substring is not a function"))] |}).
Proof.
  intros Hd Ht Hns Hp.
  rewrite (post_root_proceeds _ _ _ _ _ Hd Ht Hp).
  destruct query as [| | b | z | text | items | props];
    try reflexivity.
  exfalso. apply (Hns text). reflexivity.
Qed.

(** X5. [parameters: null] is not replaced by the default: [Object.entries]
    throws on it, after the request object was made.  The reply is 500
    and the driver saw [request()] and nothing else. *)
Theorem null_parameters_answered_500
    (req_body : JsValue) (text : string) (w w1 : World) (p : Pool)
    (rq : Request) (d : Db) :
  destructure req_body = inr (JString text, JNull) ->
  text <> ""%string ->
  ensure_pool env w = (inr tt, w1) ->
  pool w1 = Some p ->
  pool_request p (db w1) = (inr rq, d) ->
  exists w',
    post_root env req_body w =
      (inr (error_reply env
              (TypeError "Cannot convert undefined or null to object")), w') /\
    db w' = d /\
    driver_calls (trace w') = driver_calls (trace w1) ++ [NewRequest p].
Proof.
  intros Hd Hne Hp Hpool Hr.
  rewrite (post_root_proceeds _ _ _ _ _ Hd (truthy_nonempty text Hne) Hp).
  unfold execute, bind, emit, call, get_pool, lift, ret, throw. cbn.
  rewrite Hpool. cbn. rewrite Hr. cbn.
  rewrite post_catch_runs. eexists. split; [reflexivity |].
  split; [reflexivity |]. cbn [trace].
  rewrite !driver_calls_app. cbn. rewrite !app_nil_r. reflexivity.
Qed.

Lemma bind_parameters_rejects (rq : Request)
    (pre : list (string * JsValue)) (key : string) (value : JsValue)
    (post : list (string * JsValue)) (e : JsError) :
  forall w d2 d3,
    driver_inputs rq pre (db w) = (inr tt, d2) ->
    request_input rq key value d2 = (inl e, d3) ->
    bind_parameters rq (pre ++ (key, value) :: post) w =
      (inl e, {| pool := pool w; db := d3;
                 trace := trace w ++ bindings rq pre ++ [Input rq key value] |}).
Proof.
  induction pre as [| [k v] pre IH]; intros w d2 d3 Hpre Hin.
  - cbn in Hpre. inversion Hpre. subst d2. cbn [app].
    rewrite bind_parameters_cons, Hin. reflexivity.
  - cbn [app]. rewrite bind_parameters_cons. cbn in Hpre.
    destruct (request_input rq k v (db w)) as [[e0 | u] d1]; [discriminate |].
    rewrite (IH {| pool := pool w; db := d1;
                   trace := trace w ++ [Input rq k v] |} d2 d3 Hpre Hin).
    cbn. now rewrite <- app_assoc.
Qed.

(** X6. A binding the driver rejects ends the request: the entries after it
    are not bound and the query is never run.  The reply is 500 with the
    driver's error. *)
Theorem rejected_binding_stops_request
    (req_body parameters : JsValue) (text : string)
    (pre post : list (string * JsValue)) (key : string) (value : JsValue)
    (w w1 : World) (p : Pool) (rq : Request) (d1 d2 d3 : Db) (e : JsError) :
  destructure req_body = inr (JString text, parameters) ->
  text <> ""%string ->
  Object_entries parameters = inr (pre ++ (key, value) :: post) ->
  ensure_pool env w = (inr tt, w1) ->
  pool w1 = Some p ->
  pool_request p (db w1) = (inr rq, d1) ->
  driver_inputs rq pre d1 = (inr tt, d2) ->
  request_input rq key value d2 = (inl e, d3) ->
  exists w',
    post_root env req_body w = (inr (error_reply env e), w') /\
    db w' = d3 /\
    driver_calls (trace w') =
      driver_calls (trace w1) ++
        NewRequest p :: bindings rq pre ++ [Input rq key value].
Proof.
  intros Hd Hne He Hp Hpool Hr Hpre Hin.
  rewrite (post_root_proceeds _ _ _ _ _ Hd (truthy_nonempty text Hne) Hp).
  unfold execute, bind, emit, call, get_pool, lift, ret, throw. cbn.
  rewrite Hpool. cbn. rewrite Hr. cbn. rewrite He. cbn.
  erewrite bind_parameters_rejects by (cbn; eassumption).
  rewrite post_catch_runs. eexists. split; [reflexivity |].
  split; [reflexivity |]. cbn [trace].
  rewrite !driver_calls_app, driver_calls_bindings. cbn.
  rewrite !app_nil_r, <- !app_assoc. reflexivity.
Qed.

(** ** How often the driver is called *)

Lemma bind_parameters_only_inputs (rq : Request)
    (entries : list (string * JsValue)) :
  respects (grows_by (fun e => negb (is_query e) && negb (is_connect e)))
    (bind_parameters rq entries).
Proof. unfold bind_parameters. frame. Qed.

Lemma execute_no_connect (query parameters : JsValue) :
  respects (grows_by (fun e => negb (is_connect e)))
    (execute query parameters).
Proof. unfold execute, bind_parameters. frame. Qed.

Lemma count_nil (P : Effect -> bool) : count P [] = 0%nat.
Proof. reflexivity. Qed.

(** [execute] runs at most one query, and after it only writes to the
    console. *)
Lemma execute_queries_once (query parameters : JsValue) (w w' : World)
    (r : JsError + Response) :
  execute query parameters w = (r, w') ->
  (count is_query (issued w w') <= 1)%nat.
Proof.
  intros H. unfold execute in H.
  destruct query as [| | b | z | text | items | props];
    try (unfold throw in H; inversion H; subst;
         rewrite (issued_app w' w' []) by (now rewrite app_nil_r);
         cbn; lia).
  unfold bind, emit, call, get_pool, lift, ret, throw in H. cbn in H.
  destruct (pool w) as [p |]; cbn in H.
  2:{ inversion H. erewrite issued_app by reflexivity. cbn. lia. }
  destruct (pool_request p (db w)) as [[e | rq] d1].
  { inversion H. erewrite issued_app
      by (cbn [trace]; rewrite <- app_assoc; reflexivity).
    cbn. lia. }
  destruct (Object_entries parameters) as [e | entries].
  { inversion H. erewrite issued_app
      by (cbn [trace]; rewrite <- app_assoc; reflexivity).
    cbn. lia. }
  destruct (bind_parameters rq entries _) as [[e | u] w3] eqn:Eb;
    apply bind_parameters_only_inputs in Eb;
    destruct Eb as (es & Hes & Hnq); cbn [trace] in Hes;
    assert (Hcount : count is_query es = 0%nat)
      by (apply (count_none _ _ es) with (2 := Hnq); intros x Hx;
          apply andb_prop in Hx; destruct Hx as [Hx _];
          now destruct (is_query x)).
  { inversion H. subst w'. erewrite issued_app
      by (rewrite Hes, <- !app_assoc; reflexivity).
    rewrite !count_app, Hcount. cbn. lia. }
  destruct (request_query rq text (db w3)) as [[e | res] d3].
  { inversion H. erewrite issued_app
      by (cbn [trace]; rewrite Hes, <- !app_assoc; reflexivity).
    rewrite !count_app, Hcount. cbn. lia. }
  destruct (recordset res) as [rows |]; inversion H;
    (erewrite issued_app
       by (cbn [trace]; rewrite Hes, <- !app_assoc; reflexivity));
    rewrite !count_app, Hcount; cbn; lia.
Qed.

Lemma post_catch_console (e : JsError) :
  respects (grows_by is_console) (post_catch env e).
Proof.
  intros w r w' H. rewrite post_catch_runs in H. inversion H.
  exists [ConsoleError "Query execution error:" (Some e)]. split; reflexivity.
Qed.

Lemma console_not_connect (e : Effect) :
  is_console e = true -> is_connect e = false.
Proof. now destruct e. Qed.

Lemma console_not_query (e : Effect) :
  is_console e = true -> is_query e = false.
Proof. now destruct e. Qed.

Lemma not_connect (e : Effect) :
  negb (is_connect e) = true -> is_connect e = false.
Proof. now destruct (is_connect e). Qed.

(** What follows the pool check: no [connect], at most one query, and
    [pool] as the check left it. *)
Lemma post_root_rest (req_body query parameters : JsValue)
    (w w2 : World) (r : JsError + Response) :
  destructure req_body = inr (query, parameters) ->
  truthy query = true ->
  post_root env req_body w = (r, w2) ->
  exists res w1,
    ensure_pool env w = (res, w1) /\
    grows_by (fun _ => true) w1 w2 /\
    count is_connect (issued w1 w2) = 0%nat /\
    (count is_query (issued w1 w2) <= 1)%nat /\
    pool w2 = pool w1.
Proof.
  intros Hd Ht H.
  destruct (ensure_pool env w) as [[e | []] w1] eqn:Ep.
  - exists (inl e), w1. split; [reflexivity |].
    rewrite (post_root_pool_fails _ _ _ _ _ _ Hd Ht Ep) in H.
    rewrite post_catch_runs in H. inversion H.
    repeat split.
    + exists [ConsoleError "Query execution error:" (Some e)].
      split; reflexivity.
    + erewrite issued_app by reflexivity. reflexivity.
    + erewrite issued_app by reflexivity. cbn. lia.
  - exists (inr tt), w1. split; [reflexivity |].
    rewrite (post_root_proceeds _ _ _ _ _ Hd Ht Ep) in H.
    destruct (execute query parameters w1) as [[e | r0] w3] eqn:Ex.
    + pose proof (execute_no_connect _ _ _ _ _ Ex) as Hnc.
      pose proof (execute_queries_once _ _ _ _ _ Ex) as Hq.
      pose proof (execute_same_pool _ _ _ _ _ Ex) as Hsame.
      destruct (grows_by_issued _ _ _ Hnc) as [Etr Hall].
      rewrite post_catch_runs in H. inversion H. subst r.
      assert (Eissued :
        issued w1 {| pool := pool w3; db := db w3;
                     trace := trace w3 ++
                       [ConsoleError "Query execution error:" (Some e)] |} =
        issued w1 w3 ++ [ConsoleError "Query execution error:" (Some e)]).
      { apply issued_app. cbn [trace]. rewrite Etr at 1.
        now rewrite <- app_assoc. }
      repeat split.
      * eexists. split; [cbn [trace]; rewrite Etr at 1;
                         rewrite <- app_assoc; reflexivity |].
        apply forallb_forall. reflexivity.
      * rewrite Eissued, count_app.
        rewrite (count_none _ _ _ not_connect Hall). reflexivity.
      * rewrite Eissued, count_app. cbn. lia.
      * exact Hsame.
    + inversion H. subst.
      pose proof (execute_no_connect _ _ _ _ _ Ex) as Hnc.
      destruct (grows_by_issued _ _ _ Hnc) as [Etr Hall].
      repeat split.
      * eexists. split; [exact Etr |]. apply forallb_forall. reflexivity.
      * apply (count_none _ _ _ not_connect Hall).
      * eapply execute_queries_once, Ex.
      * eapply execute_same_pool, Ex.
Qed.

Lemma post_root_without_query (req_body : JsValue) (w w' : World)
    (r : JsError + Response) :
  (forall query parameters,
     destructure req_body = inr (query, parameters) -> truthy query = false) ->
  post_root env req_body w = (r, w') ->
  pool w' = pool w /\
  count is_connect (issued w w') = 0%nat /\
  count is_query (issued w w') = 0%nat.
Proof.
  intros Hno H. unfold post_root, try_catch, post_try, bind, lift, ret in H.
  destruct (destructure req_body) as [e | [query parameters]] eqn:Hd.
  - rewrite post_catch_runs in H. inversion H.
    erewrite issued_app by reflexivity. repeat split.
  - rewrite (Hno query parameters eq_refl) in H. cbn in H. inversion H. subst.
    rewrite (issued_app w' w' []) by (now rewrite app_nil_r). repeat split.
Qed.

(** X7. A POST / calls [sql.connect] at most once and runs at most one query:
    there is no retry.  When the pool it finds is live it does not
    connect at all and leaves [pool] as it is: requests share the pool
    and never make one of their own. *)
Theorem post_root_calls_driver_once (req_body : JsValue) (w w' : World)
    (r : JsError + Response) :
  post_root env req_body w = (r, w') ->
  (count is_connect (issued w w') <= 1)%nat /\
  (count is_query (issued w w') <= 1)%nat /\
  ((exists p, pool w = Some p /\ pool_connected p (db w) = true) ->
   count is_connect (issued w w') = 0%nat /\ pool w' = pool w).
Proof.
  intros H.
  destruct (destructure req_body) as [e | [query parameters]] eqn:Hd.
  { destruct (post_root_without_query req_body w w' r) as (Hp & Hc & Hq);
      [intros q ps Hd'; rewrite Hd in Hd'; discriminate | exact H |].
    rewrite Hc, Hq. repeat split; auto; lia. }
  destruct (truthy query) eqn:Ht.
  2:{ destruct (post_root_without_query req_body w w' r) as (Hp & Hc & Hq);
        [intros q ps Hd'; rewrite Hd in Hd'; inversion Hd'; subst; exact Ht
        | exact H |].
      rewrite Hc, Hq. repeat split; auto; lia. }
  destruct (post_root_rest _ _ _ _ _ _ Hd Ht H)
    as (res & w1 & Hp & Hgrow & Hc & Hq & Hpool).
  destruct (live_or_not w) as [(p & Hsome & Hlive) | Hn].
  - rewrite (ensure_pool_keeps w p Hsome Hlive) in Hp. inversion Hp. subst w1.
    rewrite Hc. repeat split; auto; lia.
  - assert (Hstale : ~ exists p, pool w = Some p /\
                                 pool_connected p (db w) = true).
    { intros (p & Hsome & Hlive).
      destruct Hn as [Hn | (q & Hq' & Hdead)]; [congruence |].
      rewrite Hsome in Hq'. inversion Hq'. subst. congruence. }
    assert (Hfirst : exists x,
              trace w1 = trace w ++ [Connect (sqlConfig env); x] /\
              is_connect x = false /\ is_query x = false).
    { destruct (sql_connect (sqlConfig env) (db w)) as [[e | p] d] eqn:Ec.
      - rewrite (ensure_pool_rejects w e d Hn Ec) in Hp. inversion Hp.
        eexists. repeat split.
      - rewrite (ensure_pool_connects w p d Hn Ec) in Hp. inversion Hp.
        eexists. repeat split. }
    destruct Hfirst as (x & Etr & Hxc & Hxq).
    assert (Eissued : issued w w' = issued w w1 ++ issued w1 w').
    { apply (issued_trans (fun _ => true) (fun _ => true)); [| exact Hgrow].
      eexists. split; [exact Etr | reflexivity]. }
    rewrite (issued_app w w1 _ Etr) in Eissued.
    assert (Hc1 : count is_connect [Connect (sqlConfig env); x] = 1%nat)
      by (unfold count; cbn; now rewrite Hxc).
    assert (Hq1 : count is_query [Connect (sqlConfig env); x] = 0%nat)
      by (unfold count; cbn; now rewrite Hxq).
    rewrite Eissued, !count_app, Hc, Hc1, Hq1.
    split; [lia | split; [lia |]].
    intros Hlive. contradiction.
Qed.

(** ** The console line of a query *)

Lemma length_append (a b : string) :
  String.length (a ++ b)%string = (String.length a + String.length b)%nat.
Proof. induction a as [| c a IH]; cbn; [reflexivity | now rewrite IH]. Qed.

Lemma length_substring (n : nat) :
  forall s, String.length (substring 0 n s) = Nat.min n (String.length s).
Proof.
  induction n as [| n IH]; intros [| c s]; cbn; try reflexivity.
  now rewrite IH.
Qed.

Lemma substring_short (n : nat) :
  forall s, (String.length s <= n)%nat -> substring 0 n s = s.
Proof.
  induction n as [| n IH]; intros [| c s]; cbn; intros H;
    try reflexivity; try lia.
  rewrite IH; [reflexivity | lia].
Qed.

Lemma substring_prefix (n : nat) :
  forall s, prefix (substring 0 n s) s = true.
Proof.
  induction n as [| n IH]; intros [| c s]; cbn; try reflexivity.
  destruct (ascii_dec c c) as [_ | Hne]; [apply IH | now elim Hne].
Qed.

Lemma execute_logs_first (text : string) (parameters : JsValue)
    (w w' : World) (r : JsError + Response) :
  execute (JString text) parameters w = (r, w') ->
  exists rest,
    trace w' =
      trace w ++
        ConsoleLog ["Executing query:"; (substring 0 100 text ++ "...")%string]
        :: rest.
Proof.
  intros H. unfold execute in H. unfold bind at 1 in H.
  unfold emit at 1 in H. cbv beta iota in H.
  match type of H with
  | ?k ?w0 = _ =>
      assert (Hk : respects (grows_by (fun _ => true)) k)
        by (unfold bind_parameters; frame)
  end.
  apply Hk in H. destruct H as (es & He & _). cbn [trace] in He.
  exists es. rewrite He, <- app_assoc. reflexivity.
Qed.

(** X12. A query that reaches the driver is first written to the console cut
    to its first 100 characters and followed by three dots, whole when it
    is no longer than that: the line never carries more than 103
    characters of the request. *)
Theorem query_logged_truncated
    (req_body parameters : JsValue) (text : string) (w w1 w' : World)
    (r : JsError + Response) :
  destructure req_body = inr (JString text, parameters) ->
  text <> ""%string ->
  ensure_pool env w = (inr tt, w1) ->
  post_root env req_body w = (r, w') ->
  exists line rest,
    issued w1 w' = ConsoleLog ["Executing query:"; line] :: rest /\
    String.length line = (Nat.min 100 (String.length text) + 3)%nat /\
    (exists head, line = (head ++ "...")%string /\ prefix head text = true) /\
    ((String.length text <= 100)%nat -> line = (text ++ "...")%string).
Proof.
  intros Hd Hne Hp H.
  rewrite (post_root_proceeds _ _ _ _ _ Hd (truthy_nonempty text Hne) Hp) in H.
  destruct (execute (JString text) parameters w1) as [[e | r0] w2] eqn:Ex;
    destruct (execute_logs_first _ _ _ _ _ Ex) as (rest & Etr).
  - rewrite post_catch_runs in H. inversion H.
    exists (substring 0 100 text ++ "...")%string. eexists. split.
    + apply issued_app. cbn [trace]. rewrite Etr, <- app_assoc. reflexivity.
    + split; [| split].
      * rewrite length_append, length_substring. reflexivity.
      * eexists. split; [reflexivity | apply substring_prefix].
      * intros Hlen. now rewrite substring_short.
  - inversion H. subst.
    exists (substring 0 100 text ++ "...")%string, rest. split.
    + apply issued_app. exact Etr.
    + split; [| split].
      * rewrite length_append, length_substring. reflexivity.
      * eexists. split; [reflexivity | apply substring_prefix].
      * intros Hlen. now rewrite substring_short.
Qed.

(** ** The port read from the environment *)

Ltac read_digit :=
  cbn [NilEmpty.string_of_uint Nat.of_uint_acc parse_digits];
  match goal with
  | |- context [digit_value ?c] =>
      let v := eval vm_compute in (digit_value c) in
      change (digit_value c) with v
  end;
  cbv beta iota;
  match goal with
  | |- context [?x <? 10] =>
      let v := eval vm_compute in (x <? 10) in
      change (x <? 10) with v
  end;
  cbv beta iota.

Lemma parse_decimal_acc (d : Decimal.uint) :
  forall a : nat,
    parse_digits 10 (NilEmpty.string_of_uint d) (Some (Z.of_nat a)) =
    Some (Z.of_nat (Nat.of_uint_acc d a)).
Proof.
  induction d; intros a; [reflexivity | ..];
    read_digit; rewrite <- IHd; do 2 f_equal;
    rewrite Nat.tail_mul_spec; lia.
Qed.

Lemma parse_decimal (d : Decimal.uint) :
  d <> Decimal.Nil ->
  parse_digits 10 (NilEmpty.string_of_uint d) None =
  Some (Z.of_nat (Nat.of_uint d)).
Proof.
  intros Hd. unfold Nat.of_uint.
  destruct d; [contradiction | ..];
    read_digit; rewrite <- parse_decimal_acc; do 2 f_equal;
    rewrite Nat.tail_mul_spec; lia.
Qed.

(** A numeral has no leading space, no sign and no [0x]. *)
Lemma parseInt_numeral (d : Decimal.uint) :
  parseInt (NilEmpty.string_of_uint d) =
  option_map (Z.mul 1) (parse_digits 10 (NilEmpty.string_of_uint d) None).
Proof.
  destruct d as [| d | d | d | d | d | d | d | d | d | d]; try reflexivity.
  destruct d; reflexivity.
Qed.

Lemma to_uint_not_nil (n : nat) : Nat.to_uint n <> Decimal.Nil.
Proof.
  rewrite <- (DecimalNat.Unsigned.of_to n) at 1.
  rewrite DecimalNat.Unsigned.to_of. unfold Decimal.unorm.
  destruct (Decimal.nzhead (Nat.to_uint n)); discriminate.
Qed.

Lemma decimal_not_empty (n : nat) : decimal n <> ""%string.
Proof.
  unfold decimal. pose proof (to_uint_not_nil n) as H.
  destruct (Nat.to_uint n); [contradiction | ..]; discriminate.
Qed.

Lemma parseInt_decimal (n : nat) : parseInt (decimal n) = Some (Z.of_nat n).
Proof.
  unfold decimal. rewrite parseInt_numeral.
  rewrite (parse_decimal _ (to_uint_not_nil n)).
  rewrite DecimalNat.Unsigned.of_to. cbn [option_map].
  now rewrite Z.mul_1_l.
Qed.

(** X13. The port handed to the driver is the number whose decimal numeral
    [MSSQL_PORT] holds (for numbers a JavaScript number holds exactly),
    and 1433 when the variable is unset or empty. *)
Theorem port_read_from_environment :
  (forall n : nat,
     Z.of_nat n < 2 ^ 53 ->
     env "MSSQL_PORT" = Some (decimal n) ->
     port (sqlConfig env) = Some (Z.of_nat n)) /\
  (env "MSSQL_PORT" = None \/ env "MSSQL_PORT" = Some ""%string ->
   port (sqlConfig env) = Some 1433).
Proof.
  split.
  - intros n _ He. cbn [sqlConfig port]. unfold env_or. rewrite He.
    pose proof (decimal_not_empty n) as Hne.
    destruct (decimal n) eqn:Ed; [contradiction |].
    rewrite <- Ed. apply parseInt_decimal.
  - intros [He | He]; cbn [sqlConfig port]; unfold env_or; rewrite He;
      reflexivity.
Qed.

(** ** Startup that connects *)

Lemma post_root_live_pool (req_body : JsValue) (w w' : World) (p : Pool)
    (r : JsError + Response) :
  pool w = Some p ->
  pool_connected p (db w) = true ->
  post_root env req_body w = (r, w') ->
  pool w' = Some p /\ count is_connect (issued w w') = 0%nat.
Proof.
  intros Hsome Hlive H.
  destruct (destructure req_body) as [e | [query parameters]] eqn:Hd.
  { destruct (post_root_without_query req_body w w' r) as (Hp & Hc & _);
      [intros q ps Hd'; rewrite Hd in Hd'; discriminate | exact H |].
    split; congruence. }
  destruct (truthy query) eqn:Ht.
  2:{ destruct (post_root_without_query req_body w w' r) as (Hp & Hc & _);
        [intros q ps Hd'; rewrite Hd in Hd'; inversion Hd'; subst; exact Ht
        | exact H |].
      split; congruence. }
  destruct (post_root_rest _ _ _ _ _ _ Hd Ht H)
    as (res & w1 & Hp & _ & Hc & _ & Hpool).
  rewrite (ensure_pool_keeps w p Hsome Hlive) in Hp. inversion Hp. subst w1.
  split; congruence.
Qed.

(** X10. When [sql.connect] resolves at startup, the listen callback stores the
    pool and returns.  A POST / that finds this pool connected uses it:
    it makes no connection of its own and leaves [pool] the startup
    pool. *)
Theorem startup_connection_shared (w : World) (p : Pool) (d : Db) :
  sql_connect (sqlConfig env) (db w) = (inr p, d) ->
  exists w1,
    react env Listening w = (Returned, w1) /\
    pool w1 = Some p /\ db w1 = d /\
    trace w1 =
      trace w ++
        [ConsoleLog [("MSSQL Bridge listening on port " ++ PORT env)%string];
         Connect (sqlConfig env);
         connected_line] /\
    (pool_connected p d = true ->
     forall req_body r w2,
       post_root env req_body w1 = (r, w2) ->
       pool w2 = Some p /\ count is_connect (issued w1 w2) = 0%nat).
Proof.
  intros Hc.
  set (w0 := {| pool := pool w; db := db w;
                trace := trace w ++
                  [ConsoleLog [("MSSQL Bridge listening on port "
                                ++ PORT env)%string]] |}).
  pose proof (initializePool_resolves w0 p d Hc) as Hinit.
  eexists. split; [| split; [| split; [| split]]].
  - unfold react, on_listen, bind, try_catch, emit, ret.
    fold w0. rewrite Hinit. reflexivity.
  - reflexivity.
  - reflexivity.
  - cbn. rewrite <- app_assoc. reflexivity.
  - intros Hlive req_body r w2 H.
    eapply post_root_live_pool; [| | exact H]; [reflexivity | exact Hlive].
Qed.

End Properties.

(** * The properties on concrete runs *)

Section ConcreteRuns.

Import Mock Runs.

Local Open Scope list_scope.

(** On this driver a query succeeds only over a pool that is connected,
    and leaves the database as it is. *)
Lemma mock_query_needs_connection :
  forall (p : @Pool driver) d rq d1 text d2 res d3,
    pool_request p d = (inr rq, d1) ->
    request_query rq text d2 = (inr res, d3) ->
    pool_connected p d3 = true.
Proof.
  cbn. unfold request, query. intros p d rq d1 text d2 res d3 Hr Hq.
  inversion Hr. subst rq d1.
  destruct (connected p d2) eqn:Ec; [| discriminate].
  repeat match type of Hq with
         | (if ?c then _ else _) = _ => destruct c
         end; inversion Hq; subst; assumption.
Qed.

(** POST / with [query: "SELECT 1 AS x"] and no parameters answers
    200 [[{"x":1}]]. *)
Lemma recordset_returned_unwrapped_witness :
  exists w',
    post_root env_unset select_one fresh =
      (inr (res_json 200 (JArray [JObject [("x", JNumber 1)]])), w') /\
    db w' = one_pool /\
    pool w' = Some 0%nat.
Proof.
  eapply (@recordset_returned_unwrapped driver env_unset select_one
            (JObject []) "SELECT 1 AS x" [] fresh).
  - reflexivity.
  - discriminate.
  - reflexivity.
  - reflexivity.
  - reflexivity.
  - reflexivity.
Defined.

Lemma missing_query_rejected_witness :
  exists r,
    post_root env_unset (JObject [("parameters", JObject [])]) fresh =
      (inr r, fresh) /\
    status r = 400 /\
    body r = JObject [("error", JString "Query is required")] /\
    json_has_field "error" (body r) = true.
Proof.
  apply (@missing_query_rejected driver env_unset
           [("parameters", JObject [])] fresh).
  left. reflexivity.
Defined.

Lemma failure_answered_500_witness :
  exists r w',
    post_root env_development select_missing fresh = (inr r, w') /\
    status r = 500 /\
    body r =
      JObject [("error", JString "Invalid object name 'missing'.");
               ("details",
                JString "RequestError: Invalid object name 'missing'.")] /\
    error_field r = JString "Invalid object name 'missing'." /\
    json_has_field "details" (body r) = true.
Proof.
  apply (@failure_answered_500 driver env_development select_missing
           (JString "SELECT x FROM missing") (JObject []) fresh
           (RequestError "Invalid object name 'missing'.")).
  - reflexivity.
  - reflexivity.
  - right. exists "SELECT x FROM missing"%string, [].
    do 3 eexists. repeat split; reflexivity.
Defined.

(** Against C3 as stated: with [NODE_ENV=test], which is not production,
    the 500 reply carries no [details]. *)
Lemma details_absent_outside_development :
  exists r w',
    post_root env_test select_missing fresh = (inr r, w') /\
    status r = 500 /\
    non_production env_test = true /\
    json_has_field "details" (body r) = false /\
    ~ (json_has_field "details" (body r) = true <->
       non_production env_test = true).
Proof.
  do 2 eexists. split; [reflexivity |]. cbn.
  repeat split; intros [_ H]; discriminate (H eq_refl).
Defined.

(** In production the reply carries the message alone. *)
Example production_hides_details :
  fst (post_root env_production select_missing fresh) =
    inr (res_json 500
           (JObject [("error", JString "Invalid object name 'missing'.");
                     ("details", JUndefined)])).
Proof. reflexivity. Qed.

(** No pool yet: one is made; the pool of [served] is live: it is kept. *)
Lemma ensure_pool_correct_witness :
  ensure_pool env_unset fresh =
    (inr tt,
     world (Some 0%nat) one_pool
       [Connect (sqlConfig env_unset); connected_line]) /\
  ensure_pool env_unset served = (inr tt, served).
Proof.
  split.
  - apply (proj1 (proj2 (@ensure_pool_correct driver env_unset fresh))).
    + left. reflexivity.
    + reflexivity.
  - apply (proj1 (@ensure_pool_correct driver env_unset served) 0%nat).
    + reflexivity.
    + reflexivity.
Defined.

Lemma health_reports_connection_witness :
  (exists h,
     react env_unset GetHealth (run env_unset [Listening; PostRoot select_one] cut_off) =
       (Responded h, run env_unset [Listening; PostRoot select_one] cut_off) /\
     status h = 200 /\
     get_prop (body h) "connected" = JNull) /\
  (exists h,
     react env_unset GetHealth served = (Responded h, served) /\
     status h = 200 /\
     get_prop (body h) "connected" = JBool true).
Proof.
  split.
  - apply (proj1 (@health_reports_connection driver env_unset)
             [Listening; PostRoot select_one] down).
    cbn. intros H.
    repeat (destruct H as [H | H]; [discriminate H |]). exact H.
  - apply (proj2 (@health_reports_connection driver env_unset)
             mock_query_needs_connection select_one fresh
             (res_json 200 (JArray [JObject [("x", JNumber 1)]])) served).
    + reflexivity.
    + reflexivity.
Defined.

(** Against C5 as stated: before any connection the field is [null], not
    [false]. *)
Lemma health_before_connection_is_null :
  exists h,
    react env_unset GetHealth fresh = (Responded h, fresh) /\
    get_prop (body h) "connected" = JNull /\
    get_prop (body h) "connected" <> JBool false.
Proof.
  eexists. split; [reflexivity |]. split; [reflexivity |]. discriminate.
Defined.

Lemma startup_failure_swallowed_witness :
  exists w1,
    react env_unset Listening cut_off = (Returned, w1) /\
    keeps_running Returned = true /\
    pool w1 = None /\
    trace w1 =
      [ConsoleLog ["MSSQL Bridge listening on port 3000"];
       Connect (sqlConfig env_unset);
       ConsoleError "Database connection failed:" (Some ConnectionError);
       ConsoleError "Failed to initialize database connection" None] /\
    forall req_body query parameters,
      destructure req_body = inr (query, parameters) ->
      truthy query = true ->
      exists r w2 rest,
        react env_unset (PostRoot req_body) w1 = (Responded r, w2) /\
        trace w2 = trace w1 ++ Connect (sqlConfig env_unset) :: rest.
Proof.
  apply (@startup_failure_swallowed driver env_unset cut_off
           ConnectionError down).
  - reflexivity.
  - reflexivity.
Defined.


Lemma sigterm_closes_pool_and_exits_witness :
  react env_unset Sigterm fresh =
    (Exited 0,
     world None up
       [ConsoleLog ["SIGTERM signal received: closing MSSQL connection"]]) /\
  react env_unset Sigterm served =
    (Exited 0,
     world (Some 0%nat) {| reachable := true; live := []; next_id := 1 |}
       (trace served ++
          [ConsoleLog ["SIGTERM signal received: closing MSSQL connection"];
           @Close driver 0%nat])).
Proof.
  split.
  - apply (proj1 (@sigterm_closes_pool_and_exits driver env_unset fresh)).
    reflexivity.
  - apply (proj2 (@sigterm_closes_pool_and_exits driver env_unset served)).
    + reflexivity.
    + reflexivity.
Defined.

Lemma error_branch_keeps_pool_witness :
  exists w',
    post_root env_unset select_missing fresh =
      (inr (error_reply env_unset
              (RequestError "Invalid object name 'missing'.")), w') /\
    pool w' = Some 0%nat /\
    db w' = one_pool /\
    no_close fresh w'.
Proof.
  apply (proj2 (@error_branch_keeps_pool driver env_unset)
           select_missing (JObject []) "SELECT x FROM missing" [] fresh
           0%nat
           one_pool).
  - reflexivity.
  - discriminate.
  - reflexivity.
  - left. reflexivity.
  - reflexivity.
  - reflexivity.
Defined.

Lemma post_root_always_answers_witness :
  (exists r w', post_root env_unset JUndefined fresh = (inr r, w') /\
                status r = 500) /\
  (exists r, post_root env_unset (JArray []) fresh = (inr r, fresh) /\
             status r = 400).
Proof.
  destruct (@post_root_always_answers driver env_unset JUndefined fresh)
    as (_ & _ & Hnull & _).
  destruct (@post_root_always_answers driver env_unset (JArray []) fresh)
    as (_ & _ & _ & Harr).
  split.
  - apply Hnull. left. reflexivity.
  - apply Harr. exact I.
Defined.

(** Against C10 as stated: a body that is a JSON array, not a JSON object,
    is answered 400, not 500. *)
Lemma array_body_answered_400 :
  exists r,
    post_root env_unset (JArray [JNumber 1]) fresh = (inr r, fresh) /\
    status r = 400 /\
    status r <> 500.
Proof.
  eexists. split; [reflexivity |]. split; [reflexivity |]. discriminate.
Defined.

(** ** Further properties on concrete runs *)

Lemma pool_never_reset_witness :
  pool (run env_unset [PostRoot select_missing; GetHealth; Sigterm] served)
    <> None.
Proof.
  apply (@pool_never_reset driver env_unset
           [PostRoot select_missing; GetHealth; Sigterm] served).
  discriminate.
Defined.

Lemma only_sigterm_closes_witness :
  no_close fresh
    (run env_unset
       [Listening; PostRoot select_one; GetRoot; PostRoot select_missing]
       fresh).
Proof.
  apply (@only_sigterm_closes driver env_unset
           [Listening; PostRoot select_one; GetRoot; PostRoot select_missing]
           fresh).
  cbn. intros H.
  repeat (destruct H as [H | H]; [discriminate H |]). exact H.
Defined.

Lemma get_endpoints_read_only_witness :
  exists h r,
    react env_unset GetHealth served = (Responded h, served) /\
    react env_unset GetRoot served = (Responded r, served) /\
    status h = 200 /\ status r = 200 /\
    get_prop (body h) "connected" = get_prop (body r) "connected" /\
    (get_prop (body h) "connected" = JBool true <->
     exists p, pool served = Some p /\ pool_connected p (db served) = true).
Proof. exact (@get_endpoints_read_only driver env_unset served). Defined.

Lemma post_root_reply_shape_witness :
  (status (res_json 200 (JArray [JObject [("x", JNumber 1)]])) = 200 /\
   exists rows,
     body (res_json 200 (JArray [JObject [("x", JNumber 1)]])) = JArray rows) \/
  ((status (res_json 200 (JArray [JObject [("x", JNumber 1)]])) = 400 \/
    status (res_json 200 (JArray [JObject [("x", JNumber 1)]])) = 500) /\
   exists msg,
     error_field (res_json 200 (JArray [JObject [("x", JNumber 1)]])) =
       JString msg).
Proof.
  apply (@post_root_reply_shape driver env_unset select_one fresh served).
  reflexivity.
Defined.

(** [query: 0] is answered like a missing query. *)
Lemma bad_request_iff_falsy_query_witness :
  (status (res_json 400 (JObject [("error", JString "Query is required")]))
     = 400 <-> truthy (JNumber 0) = false) /\
  (truthy (JNumber 0) = false ->
   served = served /\
   body (res_json 400 (JObject [("error", JString "Query is required")])) =
     JObject [("error", JString "Query is required")]).
Proof.
  apply (@bad_request_iff_falsy_query driver env_unset
           (JObject [("query", JNumber 0); ("parameters", JNull)])
           (JNumber 0) JNull served served).
  - reflexivity.
  - reflexivity.
Defined.

Lemma non_string_query_answered_500_witness :
  post_root env_unset numeric_query fresh =
    (inr (error_reply env_unset
            (TypeError "query.substring is not a function")),
     world (Some 0%nat) one_pool
       [Connect (sqlConfig env_unset); connected_line;
        ConsoleError "Query execution error:"
          (Some (TypeError "query.substring is not a function"))]).
Proof.
  apply (@non_string_query_answered_500 driver env_unset numeric_query
           (JNumber 5) (JObject []) fresh
           (world (Some 0%nat) one_pool
              [Connect (sqlConfig env_unset); connected_line])).
  - reflexivity.
  - reflexivity.
  - discriminate.
  - reflexivity.
Defined.

Lemma null_parameters_answered_500_witness :
  exists w',
    post_root env_unset null_parameters fresh =
      (inr (error_reply env_unset
              (TypeError "Cannot convert undefined or null to object")), w') /\
    db w' = one_pool /\
    driver_calls (trace w') =
      [Connect (sqlConfig env_unset); @NewRequest driver 0%nat].
Proof.
  apply (@null_parameters_answered_500 driver env_unset null_parameters
           "SELECT 1 AS x" fresh
           (world (Some 0%nat) one_pool
              [Connect (sqlConfig env_unset); connected_line])
           0%nat 0%nat one_pool).
  - reflexivity.
  - discriminate.
  - reflexivity.
  - reflexivity.
  - reflexivity.
Defined.

(** The parameter without a name is refused: [id] was bound before it,
    [z] is not bound after it, and no query runs. *)
Lemma rejected_binding_stops_request_witness :
  exists w',
    post_root env_unset unnamed_parameter fresh =
      (inr (error_reply env_unset (RequestError "Invalid parameter name")),
       w') /\
    db w' = one_pool /\
    driver_calls (trace w') =
      [Connect (sqlConfig env_unset);
       @NewRequest driver 0%nat;
       @Input driver 0%nat "id" (JNumber 5);
       @Input driver 0%nat "" (JNumber 1)].
Proof.
  apply (@rejected_binding_stops_request driver env_unset unnamed_parameter
           (JObject [("id", JNumber 5); ("", JNumber 1); ("z", JNumber 2)])
           "SELECT 1 AS x"
           [("id", JNumber 5)] [("z", JNumber 2)] "" (JNumber 1) fresh
           (world (Some 0%nat) one_pool
              [Connect (sqlConfig env_unset); connected_line])
           0%nat 0%nat one_pool one_pool one_pool
           (RequestError "Invalid parameter name")).
  - reflexivity.
  - discriminate.
  - reflexivity.
  - reflexivity.
  - reflexivity.
  - reflexivity.
  - reflexivity.
  - reflexivity.
Defined.

Lemma post_root_calls_driver_once_witness :
  (count is_connect (issued served served_twice) <= 1)%nat /\
  (count is_query (issued served served_twice) <= 1)%nat /\
  count is_connect (issued served served_twice) = 0%nat /\
  pool served_twice = pool served.
Proof.
  destruct (@post_root_calls_driver_once driver env_unset select_user served
              served_twice (fst (post_root env_unset select_user served))
              eq_refl) as (Hc & Hq & Hlive).
  split; [exact Hc | split; [exact Hq |]].
  apply Hlive. exists 0%nat. split; reflexivity.
Defined.

Lemma query_logged_truncated_witness :
  exists line rest,
    issued
      (world (Some 0%nat) one_pool
         [Connect (sqlConfig env_unset); connected_line])
      (snd (post_root env_unset (JObject [("query", JString long_query)])
              fresh)) =
      ConsoleLog ["Executing query:"; line] :: rest /\
    String.length line = (Nat.min 100 (String.length long_query) + 3)%nat /\
    (exists head, line = (head ++ "...")%string /\
                  prefix head long_query = true) /\
    ((String.length long_query <= 100)%nat ->
     line = (long_query ++ "...")%string).
Proof.
  apply (@query_logged_truncated driver env_unset
           (JObject [("query", JString long_query)]) (JObject [])
           long_query fresh
           (world (Some 0%nat) one_pool
              [Connect (sqlConfig env_unset); connected_line])
           (snd (post_root env_unset (JObject [("query", JString long_query)])
                   fresh))
           (fst (post_root env_unset (JObject [("query", JString long_query)])
                   fresh))).
  - reflexivity.
  - discriminate.
  - reflexivity.
  - reflexivity.
Defined.

Lemma port_read_from_environment_witness :
  port (sqlConfig env_port) = Some 1521 /\
  port (sqlConfig env_unset) = Some 1433.
Proof.
  split.
  - apply (proj1 (port_read_from_environment env_port) 1521%nat).
    + reflexivity.
    + reflexivity.
  - apply (proj2 (port_read_from_environment env_unset)).
    left. reflexivity.
Defined.

Lemma startup_connection_shared_witness :
  exists w1,
    react env_unset Listening fresh = (Returned, w1) /\
    pool w1 = Some 0%nat /\ db w1 = one_pool /\
    trace w1 =
      trace fresh ++
        [ConsoleLog ["MSSQL Bridge listening on port 3000"];
         Connect (sqlConfig env_unset);
         connected_line] /\
    (@pool_connected driver 0%nat one_pool = true ->
     forall req_body r w2,
       post_root env_unset req_body w1 = (r, w2) ->
       pool w2 = Some 0%nat /\ count is_connect (issued w1 w2) = 0%nat).
Proof.
  apply (@startup_connection_shared driver env_unset fresh 0%nat one_pool).
  reflexivity.
Defined.

Lemma sigterm_close_throws_witness :
  fst (react env_unset Sigterm Stuck.holding) = Unhandled Stuck.CloseError.
Proof.
  apply (@sigterm_close_throws Stuck.driver env_unset Stuck.holding 0%nat
           Stuck.CloseError
           {| reachable := true; live := [0%nat]; next_id := 1 |}).
  - reflexivity.
  - reflexivity.
Defined.

(** ** Where the code falls short of its specification *)

(** C1. A statement the driver accepts and runs without returning a
    record list is not answered 200: [result.recordset] is undefined,
    reading its [length] for the success line throws after the query ran,
    and the catch block answers 500. *)
Lemma accepted_statement_answered_500 :
  post_root env_unset update_users fresh =
    (inr (res_json 500
            (JObject
               [("error",
                 JString "Cannot read properties of undefined (reading 'length')");
                ("details", JUndefined)])),
     world (Some 0%nat) one_pool
       [Connect (sqlConfig env_unset);
        connected_line;
        ConsoleLog ["Executing query:"; "UPDATE users SET name = 'x'..."];
        @NewRequest driver 0%nat;
        @Query driver 0%nat "UPDATE users SET name = 'x'";
        ConsoleError "Query execution error:"
          (Some (TypeError
                   "Cannot read properties of undefined (reading 'length')"))])
  /\ fst (@driver_session driver 0%nat "UPDATE users SET name = 'x'" []
            one_pool) =
       inr {| recordset := None |}.
Proof. split; reflexivity. Qed.

(** C8. With a pool held whose [close] throws, the SIGTERM handler calls
    [close] and the error leaves it: the handler does throw, and the exit
    with code 0 is not reached. *)
Lemma sigterm_failing_close_unhandled :
  react env_unset Sigterm Stuck.holding =
    (Unhandled Stuck.CloseError,
     @Build_World Stuck.driver (Some 0%nat) one_pool
       [ConsoleLog ["SIGTERM signal received: closing MSSQL connection"];
        @Close Stuck.driver 0%nat]).
Proof. reflexivity. Qed.

End ConcreteRuns.
